(** * A limit order book: the [Orderbook] class of [src/orderbook.py]

    The Python class is embedded as pure functions that pass the book and
    the outside world explicitly.  Python integers are unbounded, hence [Z].
    The two [SortedDict] stores are association lists kept in the order of
    their key function, so that [next(iter(d))] is the head of the list.
    The two [while] loops of [submit_market_order] take a step budget: the
    budget running out is the model of a call that is still looping. *)

From Stdlib Require Import ZArith List String Bool Lia DecimalString Sorted.
Import ListNotations.
Open Scope Z_scope.

(** ** constants.py *)

(** [uuid.uuid4()] is abstracted to a serial number drawn from the world:
    two identifiers drawn at different times differ. *)
Definition UUID := nat.
Definition ORDER_ID := UUID.
Definition DEAL_ID := UUID.
Definition USER_ID := string.
Bind Scope string_scope with USER_ID.

Module Order.
(** The [timestamp] field is wall-clock time and is left out. *)
Record t := mk {
  owner_id : USER_ID;
  is_buy : bool;
  price : Z;
  volume : Z;
  comment : string;
  order_id : ORDER_ID
}.

(** [order.volume -= d], the in-place update of a queued order. *)
Definition sub_volume (o : t) (d : Z) : t :=
  mk (owner_id o) (is_buy o) (price o) (volume o - d) (comment o) (order_id o).
End Order.

Module Deal.
Record t := mk {
  volume : Z;
  price : Z;
  order_id_client : ORDER_ID;
  order_id_market : ORDER_ID;
  comment : string;
  deal_id : DEAL_ID
}.
End Deal.

(** The world outside the book: the identifier supply, and a record of
    every [Deal] that was ever constructed (the book itself keeps none
    while [_DEBUG_disable_cache] is set). *)
Record World := mkWorld {
  uuid_next : UUID;
  made_deals : list Deal.t
}.

Definition World_init : World := mkWorld 0%nat [].

Definition _uuid4_str (w : World) : UUID * World :=
  (uuid_next w, mkWorld (S (uuid_next w)) (made_deals w)).

Definition record_deal (d : Deal.t) (w : World) : World :=
  mkWorld (uuid_next w) (made_deals w ++ [d]).

(** ** Exceptions and call results *)

Inductive exn :=
| StopIteration
| KeyError
| ValueError
| AssertionError (msg : string).

Inductive outcome (A : Type) :=
| Returned (a : A)
| Raised (e : exn)
| Spinning.
Arguments Returned {A} a.
Arguments Raised {A} e.
Arguments Spinning {A}.

(** [sys.get_int_max_str_digits()]: CPython 3.11 and later refuse to
    print an integer of more decimal digits than this, 4300 unless set
    otherwise. *)
Definition int_max_str_digits : Z := 4300.

(** The least magnitude with a digit too many, [10 ^ int_max_str_digits],
    kept as a numeral. *)
Definition int_max_str_limit : Z := Eval vm_compute in 10 ^ int_max_str_digits.

(** The integers that print: those of at most [int_max_str_digits]
    decimal digits. *)
Definition printable (n : Z) : bool := Z.abs n <? int_max_str_limit.
Arguments printable n : simpl never.

(** The decimal numeral of an integer, with its sign. *)
Definition decimal (n : Z) : string := NilZero.string_of_int (Z.to_int n).

(** [str(n)] for a Python integer, as an f-string field computes it:
    [ValueError] for an integer that does not print. *)
Definition str (n : Z) : exn + string :=
  if printable n then inr (decimal n) else inl ValueError.

(** An f-string with two integer fields, [f"{a}{x}{b}{y}{c}"] for literal
    texts [a], [b], [c]: the fields are printed from left to right. *)
Definition fstring2 (a : string) (x : Z) (b : string) (y : Z) (c : string)
    : exn + string :=
  match str x with
  | inl e => inl e
  | inr sx =>
      match str y with
      | inl e => inl e
      | inr sy => inr (a ++ sx ++ b ++ sy ++ c)%string
      end
  end.

(** [return None, reason] where evaluating [reason] may raise. *)
Definition reject {A : Type} (reason : exn + string)
    : outcome (option A * option string) :=
  match reason with
  | inl e => Raised e
  | inr msg => Returned (None, Some msg)
  end.

(** ** SortedDict *)

Section SortedDict.
Context {V : Type}.
(** The key function given to the constructor; the identity by default. *)
Variable key : Z -> Z.

Definition sd_len (d : list (Z * V)) : Z := Z.of_nat (List.length d).

(** [next(iter(d))] *)
Definition sd_first (d : list (Z * V)) : exn + Z :=
  match d with
  | [] => inl StopIteration
  | (k, _) :: _ => inr k
  end.

(** [d[k]] *)
Fixpoint sd_get (k : Z) (d : list (Z * V)) : option V :=
  match d with
  | [] => None
  | (k', v) :: tl => if k =? k' then Some v else sd_get k tl
  end.

(** [k in d] *)
Definition sd_contains (k : Z) (d : list (Z * V)) : bool :=
  match sd_get k d with Some _ => true | None => false end.

(** [d[k] = v]: replaces the value of a present key, else inserts the
    item at its place in key order. *)
Fixpoint sd_set (k : Z) (v : V) (d : list (Z * V)) : list (Z * V) :=
  match d with
  | [] => [(k, v)]
  | (k', v') :: tl =>
      if k =? k' then (k, v) :: tl
      else if key k <? key k' then (k, v) :: d
      else (k', v') :: sd_set k v tl
  end.

(** [d.values()] *)
Definition sd_values (d : list (Z * V)) : list V := map snd d.
End SortedDict.

(** ** orderbook.py *)

Abbreviation deque := (list Order.t).

Definition bids_key (x : Z) : Z := - x.
Definition asks_key (x : Z) : Z := x.

Record Orderbook := mkOrderbook {
  bids : list (Z * deque);
  asks : list (Z * deque);
  _long_num_ords : Z;
  _short_num_ords : Z;
  _short_volume : Z;
  _long_volume : Z;
  _deals : list Deal.t;
  _orders : list Order.t
}.

(** Set by [__init__] and never assigned again. *)
Definition _DEBUG_disable_cache : bool := true.

Definition state := (Orderbook * World)%type.

Definition zsum (l : list Z) : Z := fold_right Z.add 0 l.

Definition queue_volume (ords : deque) : Z := zsum (map Order.volume ords).

Definition get_max_bid_price (self : Orderbook) : exn + Z := sd_first (bids self).

Definition get_min_ask_price (self : Orderbook) : exn + Z := sd_first (asks self).

Definition get_long_num_ords (self : Orderbook) : Z :=
  zsum (map (fun ords : deque => Z.of_nat (List.length ords)) (sd_values (asks self))).

Definition get_short_num_ords (self : Orderbook) : Z :=
  zsum (map (fun ords : deque => Z.of_nat (List.length ords)) (sd_values (bids self))).

Definition get_total_long_volume (self : Orderbook) : Z :=
  zsum (map queue_volume (sd_values (asks self))).

Definition get_total_short_volume (self : Orderbook) : Z :=
  zsum (map queue_volume (sd_values (bids self))).

Definition set_bids (self : Orderbook) (b : list (Z * deque)) : Orderbook :=
  mkOrderbook b (asks self) (_long_num_ords self) (_short_num_ords self)
    (_short_volume self) (_long_volume self) (_deals self) (_orders self).

Definition set_asks (self : Orderbook) (a : list (Z * deque)) : Orderbook :=
  mkOrderbook (bids self) a (_long_num_ords self) (_short_num_ords self)
    (_short_volume self) (_long_volume self) (_deals self) (_orders self).

Definition set_short_volume (self : Orderbook) (v : Z) : Orderbook :=
  mkOrderbook (bids self) (asks self) (_long_num_ords self) (_short_num_ords self)
    v (_long_volume self) (_deals self) (_orders self).

Definition set_long_volume (self : Orderbook) (v : Z) : Orderbook :=
  mkOrderbook (bids self) (asks self) (_long_num_ords self) (_short_num_ords self)
    (_short_volume self) v (_deals self) (_orders self).

Definition set_deals (self : Orderbook) (l : list Deal.t) : Orderbook :=
  mkOrderbook (bids self) (asks self) (_long_num_ords self) (_short_num_ords self)
    (_short_volume self) (_long_volume self) l (_orders self).

Definition set_orders (self : Orderbook) (l : list Order.t) : Orderbook :=
  mkOrderbook (bids self) (asks self) (_long_num_ords self) (_short_num_ords self)
    (_short_volume self) (_long_volume self) (_deals self) l.

(** [Orderbook.__init__] *)
Definition Orderbook_init : Orderbook :=
  let self := mkOrderbook [] [] 0 0 0 0 [] [] in
  let self := mkOrderbook (bids self) (asks self)
                (get_long_num_ords self) (get_short_num_ords self)
                (get_total_short_volume self) (get_total_long_volume self)
                [] [] in
  self.

Definition init : state := (Orderbook_init, World_init).

Definition validate (self : Orderbook) : exn + unit :=
  if negb (_short_volume self =? get_total_short_volume self) then
    inl (AssertionError "Volume mismatch for Short Orders!")
  else if negb (_long_volume self =? get_total_long_volume self) then
    inl (AssertionError "Volume mismatch for Long Orders!")
  else if (sd_len (asks self) >? 0) && (sd_len (bids self) >? 0) then
    match get_min_ask_price self with
    | inl e => inl e
    | inr a =>
        match get_max_bid_price self with
        | inl e => inl e
        | inr b =>
            if a >? b then inr tt
            else inl (AssertionError "ASKS and BIDS are mismatched!")
        end
    end
  else inr tt.

Definition create_new_order (owner_id : USER_ID) (is_buy : bool)
    (price volume : Z) (comment : string) (s : state) : Order.t * state :=
  let '(self, w) := s in
  let '(oid, w) := _uuid4_str w in
  let new_order := Order.mk owner_id is_buy price volume comment oid in
  let self :=
    if negb _DEBUG_disable_cache
    then set_orders self (_orders self ++ [new_order]) else self in
  (new_order, (self, w)).

Definition create_new_deal (volume price : Z)
    (order_id_client order_id_market : ORDER_ID) (comment : string)
    (s : state) : Deal.t * state :=
  let '(self, w) := s in
  let '(did, w) := _uuid4_str w in
  let new_deal :=
    Deal.mk volume price order_id_client order_id_market comment did in
  let self :=
    if negb _DEBUG_disable_cache
    then set_deals self (_deals self ++ [new_deal]) else self in
  (new_deal, (self, record_deal new_deal w)).

Definition limit_reply := (option ORDER_ID * option string)%type.

Definition reject_buy_msg (price max_bid_price : Z) : exn + string :=
  fstring2 "Rejected order ask price '" price "', lower than "
    max_bid_price ".".

Definition reject_sell_msg (price min_buy_price : Z) : exn + string :=
  fstring2 "Rejected order bid price '" price "', higher than "
    min_buy_price ".".

(** The part of [submit_limit_order] after the two guards. *)
Definition rest_limit_order (owner_id : USER_ID) (is_buy : bool)
    (price volume : Z) (s : state) : outcome limit_reply * state :=
  let '(new_order, (self, w)) :=
    create_new_order owner_id is_buy price volume "" s in
  let self :=
    if is_buy then set_long_volume self (_long_volume self + volume)
    else set_short_volume self (_short_volume self + volume) in
  let price_map := if is_buy then asks self else bids self in
  let queue :=
    match sd_get price price_map with
    | None => [new_order]
    | Some q => q ++ [new_order]
    end in
  let self :=
    if is_buy then set_asks self (sd_set asks_key price queue (asks self))
    else set_bids self (sd_set bids_key price queue (bids self)) in
  (Returned (Some (Order.order_id new_order), None), (self, w)).

Definition submit_limit_order (owner_id : USER_ID) (is_buy : bool)
    (price volume : Z) (s : state) : outcome limit_reply * state :=
  let self := fst s in
  let second_guard :=
    if negb is_buy && (sd_len (asks self) >? 0) then
      match get_min_ask_price self with
      | inl e => (Raised e, s)
      | inr min_buy_price =>
          if price >=? min_buy_price
          then (reject (reject_sell_msg price min_buy_price), s)
          else rest_limit_order owner_id is_buy price volume s
      end
    else rest_limit_order owner_id is_buy price volume s in
  if is_buy && (sd_len (bids self) >? 0) then
    match get_max_bid_price self with
    | inl e => (Raised e, s)
    | inr max_bid_price =>
        if price <=? max_bid_price
        then (reject (reject_buy_msg price max_bid_price), s)
        else second_guard
    end
  else second_guard.

Definition market_reply := (option (list DEAL_ID) * option string)%type.

Definition short_unsupported_msg : string :=
  "Short Market Orders currently not supported!".

Definition exceeds_short_msg (volume short_volume : Z) : exn + string :=
  fstring2 "volume=" volume ">self._short_volume=" short_volume "!".

Definition exceeds_long_msg (volume long_volume : Z) : exn + string :=
  fstring2 "volume=" volume ">self._long_volume=" long_volume "!".

(** How the inner [while] of [submit_market_order] is left. *)
Inductive level_exit :=
| LevelReturn (deal_ids : list DEAL_ID)
| LevelDone (volume : Z) (deal_ids : list DEAL_ID)
| LevelRaise (e : exn)
| LevelSpin.

(** One pass through the body of the inner [while], down to the test
    [volume == 0]: [order] is [self.bids[price_level][0]] and [queue] is
    what follows it.  Gives the volume still wanted, the identifiers so
    far and the new state. *)
Definition fill_head (owner_id : USER_ID) (is_buy : bool)
    (price_level volume : Z) (deal_ids : list DEAL_ID)
    (order : Order.t) (queue : deque) (s : state)
    : Z * list DEAL_ID * state :=
  let filled_volume := Z.min (Order.volume order) volume in
  let '(filling_order, s) :=
    create_new_order owner_id is_buy price_level filled_volume "" s in
  let '(new_deal, s) :=
    create_new_deal filled_volume price_level
      (Order.order_id filling_order) (Order.order_id order) "" s in
  let deal_ids := deal_ids ++ [Deal.deal_id new_deal] in
  let volume := volume - filled_volume in
  let '(self, w) := s in
  let self :=
    if filled_volume <? Order.volume order then
      let self :=
        set_bids self
          (sd_set bids_key price_level
             (Order.sub_volume order filled_volume :: queue) (bids self)) in
      set_short_volume self (_short_volume self - filled_volume)
    else
      let filled_order := order in
      let self :=
        set_bids self (sd_set bids_key price_level queue (bids self)) in
      set_short_volume self (_short_volume self - Order.volume filled_order) in
  (volume, deal_ids, (self, w)).

(** [while len(self.bids[price_level]) > 0: ...]; one unit of [fuel] per
    test of the loop condition. *)
Fixpoint fill_level (fuel : nat) (owner_id : USER_ID) (is_buy : bool)
    (price_level volume : Z) (deal_ids : list DEAL_ID) (s : state)
    : level_exit * state :=
  match fuel with
  | O => (LevelSpin, s)
  | S fuel =>
      match sd_get price_level (bids (fst s)) with
      | None => (LevelRaise KeyError, s)
      | Some [] => (LevelDone volume deal_ids, s)
      | Some (order :: queue) =>
          let '(volume, deal_ids, s) :=
            fill_head owner_id is_buy price_level volume deal_ids
              order queue s in
          if volume =? 0 then (LevelReturn deal_ids, s)
          else fill_level fuel owner_id is_buy price_level volume deal_ids s
      end
  end.

(** [while True: price_level = self.get_max_bid_price() ...] *)
Fixpoint walk_levels (fuel : nat) (owner_id : USER_ID) (is_buy : bool)
    (volume : Z) (deal_ids : list DEAL_ID) (s : state)
    : outcome market_reply * state :=
  match fuel with
  | O => (Spinning, s)
  | S fuel =>
      match get_max_bid_price (fst s) with
      | inl e => (Raised e, s)
      | inr price_level =>
          match fill_level fuel owner_id is_buy price_level volume deal_ids s with
          | (LevelReturn deal_ids, s) => (Returned (Some deal_ids, None), s)
          | (LevelDone volume deal_ids, s) =>
              walk_levels fuel owner_id is_buy volume deal_ids s
          | (LevelRaise e, s) => (Raised e, s)
          | (LevelSpin, s) => (Spinning, s)
          end
      end
  end.

Definition submit_market_order (fuel : nat) (owner_id : USER_ID)
    (is_buy : bool) (volume : Z) (s : state) : outcome market_reply * state :=
  let self := fst s in
  if negb is_buy then (Returned (None, Some short_unsupported_msg), s)
  else if is_buy && (volume >? _short_volume self) then
    (reject (exceeds_short_msg volume (_short_volume self)), s)
  else if negb is_buy && (volume >? _long_volume self) then
    (reject (exceeds_long_msg volume (_long_volume self)), s)
  else walk_levels fuel owner_id is_buy volume [] s.

(** ** Sequences of calls *)

Inductive call :=
| SubmitLimit (owner_id : USER_ID) (is_buy : bool) (price volume : Z)
| SubmitMarket (owner_id : USER_ID) (is_buy : bool) (volume : Z).

Inductive reply :=
| LimitReply (r : outcome limit_reply)
| MarketReply (r : outcome market_reply).

Definition exec (fuel : nat) (c : call) (s : state) : reply * state :=
  match c with
  | SubmitLimit owner_id is_buy price volume =>
      let '(r, s) := submit_limit_order owner_id is_buy price volume s in
      (LimitReply r, s)
  | SubmitMarket owner_id is_buy volume =>
      let '(r, s) := submit_market_order fuel owner_id is_buy volume s in
      (MarketReply r, s)
  end.

(** A call is over once it has returned or raised. *)
Definition finished (r : reply) : bool :=
  match r with
  | LimitReply Spinning | MarketReply Spinning => false
  | _ => true
  end.

(** The volume a call added to the book: that of an accepted limit order. *)
Definition accepted_volume (c : call) (r : reply) : Z :=
  match c, r with
  | SubmitLimit _ _ _ volume, LimitReply (Returned (Some _, _)) => volume
  | _, _ => 0
  end.

(** Runs the calls in turn; [None] when one of them is still looping after
    [fuel] steps.  The number is the total of [accepted_volume]. *)
Fixpoint run (fuel : nat) (calls : list call) (s : state) (acc : Z)
    : option (state * Z) :=
  match calls with
  | [] => Some (s, acc)
  | c :: calls =>
      let '(r, s') := exec fuel c s in
      if finished r then run fuel calls s' (acc + accepted_volume c r)
      else None
  end.

Inductive reachable : state -> Prop :=
| reachable_init : reachable init
| reachable_call fuel c s r s' :
    reachable s -> exec fuel c s = (r, s') -> finished r = true ->
    reachable s'.

Definition longVolume (s : state) : Z := get_total_long_volume (fst s).
Definition shortVolume (s : state) : Z := get_total_short_volume (fst s).

Definition deals_volume (ds : list Deal.t) : Z := zsum (map Deal.volume ds).

(** The resting orders of a store, level by level. *)
Definition resting (d : list (Z * deque)) : list Order.t := List.concat (sd_values d).

(** ** Sample books *)

Definition after (fuel : nat) (calls : list call) : state :=
  match run fuel calls init 0 with
  | Some (s, _) => s
  | None => init
  end.

Definition sample_calls : list call :=
  [SubmitLimit "a" false 101 10; SubmitLimit "b" true 101 7;
   SubmitLimit "c" true 105 2; SubmitMarket "u" true 4].

(** ** Well-formed books *)

Section Sorted.
Context {V : Type}.
Variable key : Z -> Z.

(** The items follow each other in strictly growing key order. *)
Definition sd_sorted (d : list (Z * V)) : Prop :=
  StronglySorted (fun a b => key a < key b) (map fst d).
End Sorted.

(** The orders queued at level [k] of the store for [side], with [n] the
    next identifier to be drawn: each is of that side and price, was
    drawn before, and the queue runs from the oldest to the newest. *)
Definition level_ok (side : bool) (n : UUID) (item : Z * deque) : Prop :=
  Forall (fun o => Order.is_buy o = side /\ Order.price o = fst item
                   /\ (Order.order_id o < n)%nat) (snd item)
  /\ StronglySorted lt (map Order.order_id (snd item)).

(** The identifiers of a deal were drawn before [n]. *)
Definition deal_ok (n : UUID) (d : Deal.t) : Prop :=
  (Deal.deal_id d < n /\ Deal.order_id_client d < n
   /\ Deal.order_id_market d < n)%nat.

Record book_ok (s : state) : Prop := mk_book_ok {
  ok_bids_sorted : sd_sorted bids_key (bids (fst s));
  ok_asks_sorted : sd_sorted asks_key (asks (fst s));
  ok_short : _short_volume (fst s) = get_total_short_volume (fst s);
  ok_long : _long_volume (fst s) = get_total_long_volume (fst s);
  ok_cross : forall a b,
      get_min_ask_price (fst s) = inr a ->
      get_max_bid_price (fst s) = inr b -> a > b;
  ok_bids_levels : Forall (level_ok false (uuid_next (snd s))) (bids (fst s));
  ok_asks_levels : Forall (level_ok true (uuid_next (snd s))) (asks (fst s));
  ok_deals : Forall (deal_ok (uuid_next (snd s))) (made_deals (snd s))
}.

(** Every order resting in [bids] has a positive volume. *)
Definition positive_bids (self : Orderbook) : Prop :=
  Forall (fun o => 0 < Order.volume o) (resting (bids self)).

(** ** Notions used in the statements *)

(** A buy is checked against the first key of [bids], a sell against the
    first key of [asks]. *)
Definition crosses (is_buy : bool) (price : Z) (self : Orderbook) : Prop :=
  if is_buy
  then exists m, get_max_bid_price self = inr m /\ price <= m
  else exists m, get_min_ask_price self = inr m /\ price >= m.

(** The third condition of [validate]. *)
Definition no_cross (self : Orderbook) : Prop :=
  sd_len (asks self) > 0 -> sd_len (bids self) > 0 ->
  exists a b,
    get_min_ask_price self = inr a /\ get_max_bid_price self = inr b /\ a > b.

(** The two cached running totals together. *)
Definition cached_total (s : state) : Z :=
  _long_volume (fst s) + _short_volume (fst s).

(** The volumes of all the limit orders of a sequence, accepted or not. *)
Definition submitted_volume (calls : list call) : Z :=
  zsum (map (fun c => match c with
                      | SubmitLimit _ _ _ volume => volume
                      | SubmitMarket _ _ _ => 0
                      end) calls).

(** Every deal made so far has a positive volume. *)
Definition positive_deals (w : World) : Prop :=
  Forall (fun d => 0 < Deal.volume d) (made_deals w).

(** A call that asks for a positive volume; the volume of a buy limit
    order is left free, for a buy rests in [asks] and is never filled. *)
Definition positive_call (c : call) : Prop :=
  match c with
  | SubmitLimit _ is_buy _ volume => is_buy = true \/ 0 < volume
  | SubmitMarket _ _ volume => 0 < volume
  end.

(** What a walk over the levels never touches, and what it keeps in
    balance: the volume taken off [_short_volume] is the volume dealt. *)
Definition market_frame (s0 s : state) : Prop :=
  asks (fst s) = asks (fst s0)
  /\ _long_volume (fst s) = _long_volume (fst s0)
  /\ map fst (bids (fst s)) = map fst (bids (fst s0))
  /\ _short_volume (fst s) + deals_volume (made_deals (snd s))
     = _short_volume (fst s0) + deals_volume (made_deals (snd s0)).

(** The deals made since a walk began, against the first level [(p, q)]
    it found: one for each of the first orders of [q], in queue order and
    all at price [p]; [ids] collects their identifiers. *)
Definition deals_follow (made0 : list Deal.t) (ids0 : list DEAL_ID)
    (p : Z) (q : deque) (ids : list DEAL_ID) (w : World) (ds : list Deal.t)
    : Prop :=
  made_deals w = made0 ++ ds
  /\ ids = ids0 ++ map Deal.deal_id ds
  /\ map Deal.order_id_market ds
     = map Order.order_id (firstn (List.length ds) q)
  /\ Forall (fun d => Deal.price d = p) ds.

(** The four fields that only [__init__] and the two constructors with
    the cache switched on would write. *)
Definition idle_fields (self : Orderbook) : Z * Z * list Deal.t * list Order.t :=
  (_long_num_ords self, _short_num_ords self, _deals self, _orders self).

(** Deal [d1] goes before deal [d2]: the price does not rise from [d1]
    to [d2], and at one price the order that [d1] was made against has
    the identifier drawn first. *)
Definition priority (d1 d2 : Deal.t) : Prop :=
  Deal.price d2 <= Deal.price d1
  /\ (Deal.price d1 = Deal.price d2 ->
      (Deal.order_id_market d1 < Deal.order_id_market d2)%nat).

(** The orders resting in the book, those of [bids] then those of
    [asks]. *)
Definition resting_orders (self : Orderbook) : list Order.t :=
  resting (bids self) ++ resting (asks self).

(** The prices at which the orders of one side rest, wherever they are
    stored. *)
Definition resting_prices (side : bool) (self : Orderbook) : list Z :=
  map Order.price
    (filter (fun o => Bool.eqb (Order.is_buy o) side) (resting_orders self)).

Definition list_min (l : list Z) : option Z :=
  match l with
  | [] => None
  | x :: tl => Some (fold_right Z.min x tl)
  end.

Definition list_max (l : list Z) : option Z :=
  match l with
  | [] => None
  | x :: tl => Some (fold_right Z.max x tl)
  end.

(** The best prices by the side of the orders: the lowest price at which
    a sell order rests, the highest price at which a buy order rests. *)
Definition best_sell_price (self : Orderbook) : option Z :=
  list_min (resting_prices false self).

Definition best_buy_price (self : Orderbook) : option Z :=
  list_max (resting_prices true self).

(** * Facts *)

(** ** SortedDict *)

Section SortedDictFacts.
Context {V : Type}.
Variable key : Z -> Z.
Hypothesis key_inj : forall a b, key a = key b -> a = b.

Lemma sd_get_set_same (k : Z) (v : V) d :
  sd_get k (sd_set key k v d) = Some v.
Proof.
  induction d as [|[k' v'] tl IH]; simpl.
  - now rewrite Z.eqb_refl.
  - destruct (k =? k') eqn:E; simpl.
    + now rewrite Z.eqb_refl.
    + destruct (key k <? key k'); simpl.
      * now rewrite Z.eqb_refl.
      * now rewrite E.
Qed.

Lemma sd_get_set_other (k k' : Z) (v : V) d :
  k' <> k -> sd_get k' (sd_set key k v d) = sd_get k' d.
Proof.
  intros Hne. apply Z.eqb_neq in Hne.
  induction d as [|[k0 v0] tl IH]; simpl.
  - now rewrite Hne.
  - destruct (k =? k0) eqn:E; simpl.
    + apply Z.eqb_eq in E. subst k0. now rewrite Hne.
    + destruct (key k <? key k0); simpl.
      * now rewrite Hne.
      * now rewrite IH.
Qed.

Lemma sd_get_in (k : Z) (v : V) d : sd_get k d = Some v -> In (k, v) d.
Proof.
  induction d as [|[k' v'] tl IH]; simpl; [discriminate|].
  destruct (k =? k') eqn:E; intros H.
  - apply Z.eqb_eq in E. inversion H. subst. now left.
  - right. auto.
Qed.

(** A new key is put between two parts of the store. *)
Lemma sd_set_absent (k : Z) (v : V) d :
  sd_get k d = None ->
  exists l1 l2, d = l1 ++ l2 /\ sd_set key k v d = l1 ++ (k, v) :: l2.
Proof.
  induction d as [|[k' v'] tl IH]; simpl; intros H.
  - now exists [], [].
  - destruct (k =? k') eqn:E; [discriminate|].
    destruct (key k <? key k').
    + now exists [], ((k', v') :: tl).
    + destruct (IH H) as (l1 & l2 & -> & ->).
      now exists ((k', v') :: l1), l2.
Qed.

(** In a sorted store a present key has its value replaced in place. *)
Lemma sd_set_present (k : Z) (v old : V) d :
  sd_sorted key d -> sd_get k d = Some old ->
  exists l1 l2, d = l1 ++ (k, old) :: l2 /\ sd_set key k v d = l1 ++ (k, v) :: l2.
Proof.
  unfold sd_sorted.
  induction d as [|[k' v'] tl IH]; simpl; intros Hs H; [discriminate|].
  inversion Hs as [|? ? Hs' Hall]; subst.
  destruct (k =? k') eqn:E.
  - apply Z.eqb_eq in E. inversion H. subst. now exists [], tl.
  - assert (Hlt : key k' < key k).
    { apply sd_get_in in H. rewrite Forall_forall in Hall.
      apply (Hall k). now apply (in_map fst) in H. }
    replace (key k <? key k') with false by (symmetry; apply Z.ltb_ge; lia).
    destruct (IH Hs' H) as (l1 & l2 & -> & ->).
    now exists ((k', v') :: l1), l2.
Qed.

Lemma sd_set_keys (k : Z) (v : V) d x :
  In x (map fst (sd_set key k v d)) -> x = k \/ In x (map fst d).
Proof.
  induction d as [|[k' v'] tl IH]; simpl.
  - intros [H|[]]; auto.
  - destruct (k =? k') eqn:E; simpl.
    + apply Z.eqb_eq in E. subst. intros [H|H]; auto.
    + destruct (key k <? key k'); simpl.
      * intros [H|[H|H]]; auto.
      * intros [H|H]; auto. destruct (IH H); auto.
Qed.

Lemma sd_set_sorted (k : Z) (v : V) d :
  sd_sorted key d -> sd_sorted key (sd_set key k v d).
Proof.
  unfold sd_sorted.
  induction d as [|[k' v'] tl IH]; simpl; intros Hs.
  - repeat constructor.
  - inversion Hs as [|? ? Hs' Hall]; subst.
    destruct (k =? k') eqn:E; simpl.
    + apply Z.eqb_eq in E. subst. now constructor.
    + destruct (key k <? key k') eqn:L; simpl.
      * apply Z.ltb_lt in L. constructor; [exact Hs|].
        constructor; [exact L|].
        eapply Forall_impl; [|exact Hall]. simpl. intros; lia.
      * apply Z.ltb_ge in L. apply Z.eqb_neq in E.
        constructor; [now apply IH|].
        apply Forall_forall. intros x Hx.
        destruct (sd_set_keys _ _ _ _ Hx) as [->|Hin].
        -- assert (key k <> key k') by (intros Hk; apply E; now apply key_inj).
           lia.
        -- rewrite Forall_forall in Hall. now apply Hall.
Qed.

(** The first key after [d[k] = v] is [k] or the first key before. *)
Lemma sd_first_set (k : Z) (v : V) d :
  sd_first (sd_set key k v d) = inr k
  \/ sd_first (sd_set key k v d) = sd_first d.
Proof.
  destruct d as [|[k' v'] tl]; simpl; auto.
  destruct (k =? k'); simpl; auto.
  destruct (key k <? key k'); simpl; auto.
Qed.

(** The first key of a sorted store is the least one in key order. *)
Lemma sd_first_least (d : list (Z * V)) k x :
  sd_sorted key d -> sd_first d = inr k -> In x (map fst d) ->
  key k <= key x.
Proof.
  unfold sd_sorted. destruct d as [|[k' v'] tl]; simpl; [discriminate|].
  intros Hs H Hin. inversion H; subst k'.
  inversion Hs as [|? ? _ Hall]; subst.
  destruct Hin as [->|Hin]; [lia|].
  rewrite Forall_forall in Hall. specialize (Hall _ Hin). lia.
Qed.
End SortedDictFacts.

Lemma bids_key_inj a b : bids_key a = bids_key b -> a = b.
Proof. unfold bids_key. lia. Qed.

Lemma asks_key_inj a b : asks_key a = asks_key b -> a = b.
Proof. unfold asks_key. lia. Qed.

(** ** Sums and queues *)

Lemma zsum_app l1 l2 : zsum (l1 ++ l2) = zsum l1 + zsum l2.
Proof. induction l1; simpl; lia. Qed.

Lemma queue_volume_snoc q o :
  queue_volume (q ++ [o]) = queue_volume q + Order.volume o.
Proof. unfold queue_volume. rewrite map_app, zsum_app. simpl. lia. Qed.

Lemma queue_volume_cons o q :
  queue_volume (o :: q) = Order.volume o + queue_volume q.
Proof. reflexivity. Qed.

Lemma total_insert (l1 l2 : list (Z * deque)) k q :
  zsum (map queue_volume (sd_values (l1 ++ (k, q) :: l2)))
  = zsum (map queue_volume (sd_values (l1 ++ l2))) + queue_volume q.
Proof.
  unfold sd_values. rewrite !map_app, !zsum_app. simpl. lia.
Qed.

Lemma sorted_ids_snoc (l : list nat) (y : nat) :
  StronglySorted lt l -> Forall (fun x => (x < y)%nat) l ->
  StronglySorted lt (l ++ [y]).
Proof.
  induction 1 as [|x l Hs IH Hx]; simpl; intros Hall.
  - repeat constructor.
  - inversion Hall; subst. constructor; [now apply IH|].
    apply Forall_app. split; [exact Hx|]. now repeat constructor.
Qed.

Lemma level_ok_mono side n m item :
  (n <= m)%nat -> level_ok side n item -> level_ok side m item.
Proof.
  intros Hle [Hall Hs]. split; [|exact Hs].
  eapply Forall_impl; [|exact Hall]. simpl. intros o (? & ? & ?).
  repeat split; auto; lia.
Qed.

Lemma levels_ok_mono side n m d :
  (n <= m)%nat -> Forall (level_ok side n) d -> Forall (level_ok side m) d.
Proof.
  intros Hle. apply Forall_impl. intros item. now apply level_ok_mono.
Qed.

(** Queueing a freshly drawn order behind the others of its level. *)
Lemma level_ok_snoc side n k q o :
  level_ok side n (k, q) ->
  Order.is_buy o = side -> Order.price o = k -> Order.order_id o = n ->
  level_ok side (S n) (k, q ++ [o]).
Proof.
  intros [Hall Hs] Hb Hp Hi. simpl in *. split; simpl.
  - apply Forall_app. split.
    + eapply Forall_impl; [|exact Hall]. simpl. intros x (? & ? & ?).
      repeat split; auto; lia.
    + constructor; [|constructor]. repeat split; auto; lia.
  - rewrite map_app. simpl. apply sorted_ids_snoc; [exact Hs|].
    apply Forall_map. eapply Forall_impl; [|exact Hall]. simpl.
    intros x (? & ? & ?). lia.
Qed.

(** ** submit_limit_order *)

(** What [rest_limit_order] leaves behind, spelled out. *)
Lemma rest_limit_order_eq owner_id is_buy price volume self w :
  let new_order :=
    Order.mk owner_id is_buy price volume "" (uuid_next w) in
  let queue d :=
    match sd_get price d with Some q => q ++ [new_order] | None => [new_order] end in
  rest_limit_order owner_id is_buy price volume (self, w)
  = (Returned (Some (uuid_next w), None),
     ((if is_buy
       then set_asks (set_long_volume self (_long_volume self + volume))
              (sd_set asks_key price (queue (asks self)) (asks self))
       else set_bids (set_short_volume self (_short_volume self + volume))
              (sd_set bids_key price (queue (bids self)) (bids self))),
      mkWorld (S (uuid_next w)) (made_deals w))).
Proof.
  unfold rest_limit_order, create_new_order, _uuid4_str. simpl.
  destruct is_buy; simpl; reflexivity.
Qed.

Lemma sd_len_first {V} (d : list (Z * V)) :
  (sd_len d >? 0) = match sd_first d with inr _ => true | inl _ => false end.
Proof.
  destruct d as [|[k v] tl]; simpl; [reflexivity|].
  unfold sd_len. rewrite Z.gtb_ltb. apply Z.ltb_lt. simpl List.length. lia.
Qed.

(** Both fields print: the text; else [ValueError]. *)
Lemma fstring2_cases a x b y c :
  (printable x = true /\ printable y = true
   /\ fstring2 a x b y c = inr (a ++ decimal x ++ b ++ decimal y ++ c)%string)
  \/ ((printable x = false \/ printable y = false)
      /\ fstring2 a x b y c = inl ValueError).
Proof.
  unfold fstring2, str.
  destruct (printable x); [|right; auto].
  destruct (printable y); [left; auto|right; auto].
Qed.

(** What [reject] gives is never an acceptance. *)
Lemma reject_cases {A} (reason : exn + string) :
  (exists e, reason = inl e /\ @reject A reason = Raised e)
  \/ (exists msg, reason = inr msg /\ @reject A reason = Returned (None, Some msg)).
Proof. destruct reason; simpl; eauto. Qed.

Ltac case_reject :=
  match goal with
  | |- context [reject ?x] => destruct x as [?e|?msg]; cbn [reject]
  | H : context [reject ?x] |- _ => destruct x as [?e|?msg]; cbn [reject] in H
  end.

Lemma submit_limit_order_cases owner_id is_buy price volume s :
  (crosses is_buy price (fst s) /\
   exists m,
     (if is_buy then get_max_bid_price (fst s) else get_min_ask_price (fst s))
     = inr m /\
     submit_limit_order owner_id is_buy price volume s
     = (reject ((if is_buy then reject_buy_msg else reject_sell_msg) price m),
        s))
  \/ (~ crosses is_buy price (fst s) /\
      submit_limit_order owner_id is_buy price volume s
      = rest_limit_order owner_id is_buy price volume s).
Proof.
  unfold submit_limit_order, crosses, get_max_bid_price, get_min_ask_price.
  destruct is_buy; simpl.
  - rewrite sd_len_first. destruct (sd_first (bids (fst s))) as [e|m] eqn:E.
    + right. split; [|reflexivity]. intros (m & Hm & _). discriminate.
    + destruct (price <=? m) eqn:L.
      * left. apply Z.leb_le in L. split; eauto.
      * right. apply Z.leb_gt in L. split; [|reflexivity].
        intros (m' & Hm & Hle). inversion Hm. lia.
  - rewrite sd_len_first. destruct (sd_first (asks (fst s))) as [e|m] eqn:E.
    + right. split; [|reflexivity]. intros (m & Hm & _). discriminate.
    + destruct (price >=? m) eqn:L.
      * left. apply Z.geb_le in L. split; eauto. exists m. split; auto. lia.
      * right. split; [|reflexivity].
        intros (m' & Hm & Hle). inversion Hm. subst.
        rewrite Z.geb_leb in L. apply Z.leb_gt in L. lia.
Qed.

Lemma deals_ok_mono n m ds :
  (n <= m)%nat -> Forall (deal_ok n) ds -> Forall (deal_ok m) ds.
Proof.
  intros Hle. apply Forall_impl. unfold deal_ok. intros d (? & ? & ?).
  repeat split; lia.
Qed.

Ltac older_levels := eapply levels_ok_mono; [|eassumption]; lia.
Ltac older_deals := eapply deals_ok_mono; [|eassumption]; lia.

(** Appending an order to its level, in either store. *)
Lemma store_append (key : Z -> Z) side n price o (d : list (Z * deque)) :
  sd_sorted key d -> Forall (level_ok side n) d ->
  Order.is_buy o = side -> Order.price o = price -> Order.order_id o = n ->
  let queue :=
    match sd_get price d with Some q => q ++ [o] | None => [o] end in
  Forall (level_ok side (S n)) (sd_set key price queue d)
  /\ zsum (map queue_volume (sd_values (sd_set key price queue d)))
     = zsum (map queue_volume (sd_values d)) + Order.volume o.
Proof.
  intros Hs Hall Hb Hp Hi queue. subst queue.
  destruct (sd_get price d) as [q|] eqn:G.
  - destruct (sd_set_present key price (q ++ [o]) q d Hs G)
      as (l1 & l2 & Hd & ->).
    subst d. rewrite !total_insert, queue_volume_snoc.
    apply Forall_app in Hall. destruct Hall as [H1 H2].
    inversion H2 as [|? ? Hq H2']; subst. split; [|lia].
    apply Forall_app. split; [older_levels|].
    constructor; [now apply level_ok_snoc|older_levels].
  - destruct (sd_set_absent key price [o] d G) as (l1 & l2 & Hd & ->).
    subst d. rewrite total_insert.
    apply Forall_app in Hall. destruct Hall as [H1 H2]. split.
    + apply Forall_app. split; [older_levels|].
      constructor; [|older_levels].
      apply (level_ok_snoc side n price [] o); auto.
      split; simpl; constructor.
    + f_equal. unfold queue_volume. simpl. lia.
Qed.

Lemma rest_limit_order_ok owner_id is_buy price volume s r s' :
  book_ok s -> ~ crosses is_buy price (fst s) ->
  rest_limit_order owner_id is_buy price volume s = (r, s') ->
  book_ok s'.
Proof.
  destruct s as [self w]. intros [Hbs Has Hsh Hlo Hcr Hbl Hal Hds] Hnc.
  simpl in *. rewrite rest_limit_order_eq. intros H. inversion H; subst; clear H.
  set (o := Order.mk owner_id is_buy price volume "" (uuid_next w)).
  destruct is_buy.
  - destruct (store_append asks_key true (uuid_next w) price o (asks self)
                Has Hal eq_refl eq_refl eq_refl) as [Hl Ht].
    constructor; simpl; auto.
    + now apply sd_set_sorted; [apply asks_key_inj|].
    + unfold get_total_long_volume in *. cbn [asks set_asks].
      rewrite Ht, Hlo. reflexivity.
    + unfold get_min_ask_price, get_max_bid_price. simpl. intros a b Ha Hb.
      destruct (sd_first_set asks_key price
                  (match sd_get price (asks self) with
                   | Some q => q ++ [o] | None => [o] end) (asks self)) as [E|E];
        fold o in Ha; rewrite E in Ha.
      * inversion Ha; subst a.
        destruct (Z_gt_le_dec price b) as [?|Hle]; [assumption|].
        exfalso. apply Hnc. exists b. split; [exact Hb|lia].
      * now apply Hcr.
    + older_levels.
    + older_deals.
  - destruct (store_append bids_key false (uuid_next w) price o (bids self)
                Hbs Hbl eq_refl eq_refl eq_refl) as [Hl Ht].
    constructor; simpl; auto.
    + now apply sd_set_sorted; [apply bids_key_inj|].
    + unfold get_total_short_volume in *. cbn [bids set_bids].
      rewrite Ht, Hsh. reflexivity.
    + unfold get_min_ask_price, get_max_bid_price. simpl. intros a b Ha Hb.
      destruct (sd_first_set bids_key price
                  (match sd_get price (bids self) with
                   | Some q => q ++ [o] | None => [o] end) (bids self)) as [E|E];
        fold o in Hb; rewrite E in Hb.
      * inversion Hb; subst b.
        destruct (Z_gt_le_dec a price) as [?|Hle]; [assumption|].
        exfalso. apply Hnc. exists a. split; [exact Ha|lia].
      * now apply Hcr.
    + older_levels.
    + older_deals.
Qed.

Lemma submit_limit_order_ok owner_id is_buy price volume s r s' :
  book_ok s ->
  submit_limit_order owner_id is_buy price volume s = (r, s') ->
  book_ok s'.
Proof.
  intros Hok H.
  destruct (submit_limit_order_cases owner_id is_buy price volume s)
    as [(_ & m & _ & E)|(Hnc & E)]; rewrite E in H.
  - inversion H; subst. exact Hok.
  - eapply rest_limit_order_ok; eauto.
Qed.

(** ** submit_market_order *)

(** One pass of the loop body on the first level of [bids]. *)
Lemma fill_head_eq owner_id is_buy p v ids o q rest self w :
  bids self = (p, o :: q) :: rest ->
  let f := Z.min (Order.volume o) v in
  fill_head owner_id is_buy p v ids o q (self, w)
  = (v - f, ids ++ [S (uuid_next w)],
     (set_short_volume
        (set_bids self
           ((p, if f <? Order.volume o then Order.sub_volume o f :: q else q)
              :: rest))
        (_short_volume self - (if f <? Order.volume o then f else Order.volume o)),
      mkWorld (S (S (uuid_next w)))
        (made_deals w
           ++ [Deal.mk f p (uuid_next w) (Order.order_id o) "" (S (uuid_next w))]))).
Proof.
  intros Hb f. unfold fill_head, create_new_order, create_new_deal, _uuid4_str,
    record_deal. simpl. fold f. rewrite Hb.
  destruct (f <? Order.volume o); simpl; rewrite Z.eqb_refl; reflexivity.
Qed.

Section LoopRule.
Variables (owner_id : USER_ID) (is_buy : bool).
(** [I] holds whenever a loop condition is tested, [Q] on [return]. *)
Variable I : Z -> list DEAL_ID -> state -> Prop.
Variable Q : list DEAL_ID -> state -> Prop.
Hypothesis body :
  forall p v ids o q rest self w,
    bids self = (p, o :: q) :: rest -> I v ids (self, w) ->
    let '(v', ids', s') := fill_head owner_id is_buy p v ids o q (self, w) in
    if v' =? 0 then Q ids' s' else I v' ids' s'.

Lemma fill_level_rule fuel p v ids s ex s' :
  get_max_bid_price (fst s) = inr p -> I v ids s ->
  fill_level fuel owner_id is_buy p v ids s = (ex, s') ->
  match ex with
  | LevelReturn ids' => Q ids' s'
  | LevelDone v' ids' =>
      I v' ids' s' /\ exists rest, bids (fst s') = (p, []) :: rest
  | LevelRaise _ => False
  | LevelSpin => exists v' ids', I v' ids' s'
  end.
Proof.
  revert v ids s.
  induction fuel as [|fuel IH]; intros v ids [self w] Hp HI H;
    cbn [fill_level fst] in *.
  - inversion H; subst. eauto.
  - unfold get_max_bid_price in Hp.
    destruct (bids self) as [|[p' q] rest] eqn:Hb; simpl in Hp; [discriminate|].
    inversion Hp; subst p'. cbn [sd_get] in H. rewrite Z.eqb_refl in H.
    destruct q as [|o q].
    + inversion H; subst. simpl. rewrite Hb. eauto.
    + pose proof (body p v ids o q rest self w Hb HI) as Hstep.
      rewrite (fill_head_eq owner_id is_buy p v ids o q rest self w Hb) in *.
      cbv zeta in *.
      destruct (v - Z.min (Order.volume o) v =? 0).
      * inversion H; subst. exact Hstep.
      * eapply IH; [|exact Hstep|exact H]. reflexivity.
Qed.

Lemma walk_levels_rule fuel v ids s r s' :
  I v ids s ->
  walk_levels fuel owner_id is_buy v ids s = (r, s') ->
  match r with
  | Returned x => exists ids', x = (Some ids', None) /\ Q ids' s'
  | Raised e =>
      e = StopIteration /\ bids (fst s') = [] /\ exists v' ids', I v' ids' s'
  | Spinning => exists v' ids', I v' ids' s'
  end.
Proof.
  revert v ids s.
  induction fuel as [|fuel IH]; intros v ids s HI H; simpl in H.
  - inversion H; subst. eauto.
  - destruct (get_max_bid_price (fst s)) as [e|p] eqn:Hp.
    + inversion H; subst. unfold get_max_bid_price in Hp.
      destruct (bids (fst s')) as [|[? ?] ?]; simpl in Hp; [|discriminate].
      inversion Hp. eauto.
    + destruct (fill_level fuel owner_id is_buy p v ids s) as [ex s1] eqn:F.
      pose proof (fill_level_rule fuel p v ids s ex s1 Hp HI F) as R.
      destruct ex as [ids'|v' ids'|e|].
      * inversion H; subst. eauto.
      * destruct R as [HI' _]. eapply IH; eauto.
      * contradiction.
      * inversion H; subst. exact R.
Qed.
End LoopRule.

Lemma sub_volume_level_ok side n p o f q :
  level_ok side n (p, o :: q) ->
  level_ok side n (p, Order.sub_volume o f :: q).
Proof.
  intros [Hall Hs]. simpl in *. inversion Hall; subst.
  split; simpl; [constructor; assumption|exact Hs].
Qed.

Lemma tail_level_ok side n p o q :
  level_ok side n (p, o :: q) -> level_ok side n (p, q).
Proof.
  intros [Hall Hs]. simpl in *. inversion Hall; inversion Hs; subst.
  split; assumption.
Qed.

(** The loop body keeps a well-formed book well-formed. *)
Lemma fill_head_ok owner_id is_buy p v ids o q rest self w :
  bids self = (p, o :: q) :: rest -> book_ok (self, w) ->
  book_ok (snd (fill_head owner_id is_buy p v ids o q (self, w))).
Proof.
  intros Hb [Hbs Has Hsh Hlo Hcr Hbl Hal Hds].
  rewrite (fill_head_eq _ _ _ _ _ _ _ _ _ _ Hb). cbv zeta.
  cbn [fst snd] in *. unfold sd_sorted, get_total_short_volume,
    get_total_long_volume, get_min_ask_price, get_max_bid_price in *.
  rewrite Hb in *. inversion Hbl as [|? ? Hl Hrest]; subst.
  set (f := Z.min (Order.volume o) v).
  constructor; cbn [fst snd bids asks set_bids set_short_volume
                      _short_volume _long_volume uuid_next made_deals]; auto.
  - rewrite Hsh. unfold get_total_short_volume, sd_values, zsum.
    cbn [bids set_bids set_short_volume map snd fold_right].
    destruct (f <? Order.volume o); rewrite ?queue_volume_cons;
      cbn [Order.volume Order.sub_volume]; lia.
  - constructor; [|older_levels].
    apply (level_ok_mono false (uuid_next w)); [lia|].
    destruct (f <? Order.volume o);
      [now apply sub_volume_level_ok|eapply tail_level_ok; eauto].
  - older_levels.
  - apply Forall_app. split; [older_deals|].
    constructor; [|constructor]. destruct Hl as [Hall _].
    inversion Hall as [|? ? (_ & _ & Hid) _]; subst.
    unfold deal_ok. cbn. lia.
Qed.

Lemma walk_levels_ok fuel owner_id is_buy v ids s r s' :
  book_ok s -> walk_levels fuel owner_id is_buy v ids s = (r, s') ->
  book_ok s'.
Proof.
  intros Hok H.
  pose proof (walk_levels_rule owner_id is_buy
                (fun _ _ s => book_ok s) (fun _ s => book_ok s)) as R.
  specialize (R (fun p v ids o q rest self w Hb HI =>
    ltac:(pose proof (fill_head_ok owner_id is_buy p v ids o q rest self w Hb HI);
          destruct (fill_head owner_id is_buy p v ids o q (self, w)) as [[v' ids'] s1];
          destruct (v' =? 0); assumption))).
  specialize (R fuel v ids s r s' Hok H).
  destruct r as [x|e|].
  - now destruct R as (_ & _ & ?).
  - now destruct R as (_ & _ & _ & _ & ?).
  - now destruct R as (_ & _ & ?).
Qed.

Lemma submit_market_order_ok fuel owner_id is_buy v s r s' :
  book_ok s -> submit_market_order fuel owner_id is_buy v s = (r, s') ->
  book_ok s'.
Proof.
  unfold submit_market_order. intros Hok H.
  destruct (negb is_buy); [now inversion H; subst|].
  destruct (is_buy && (v >? _short_volume (fst s))); [now inversion H; subst|].
  cbn [andb] in H. eapply walk_levels_ok; eauto.
Qed.

Lemma init_ok : book_ok init.
Proof.
  constructor; simpl; try constructor; try reflexivity.
  intros a b H. discriminate.
Qed.

Lemma exec_ok fuel c s r s' : book_ok s -> exec fuel c s = (r, s') -> book_ok s'.
Proof.
  intros Hok. destruct c as [o b p v|o b v]; simpl.
  - destruct (submit_limit_order o b p v s) as [r0 s0] eqn:E.
    intros H; inversion H; subst. eapply submit_limit_order_ok; eauto.
  - destruct (submit_market_order fuel o b v s) as [r0 s0] eqn:E.
    intros H; inversion H; subst. eapply submit_market_order_ok; eauto.
Qed.

Lemma reachable_ok s : reachable s -> book_ok s.
Proof.
  induction 1 as [|fuel c s r s' _ IH E _]; [apply init_ok|].
  eapply exec_ok; eauto.
Qed.

Lemma deals_volume_snoc ds d :
  deals_volume (ds ++ [d]) = deals_volume ds + Deal.volume d.
Proof. unfold deals_volume. rewrite map_app, zsum_app. simpl. lia. Qed.

Lemma fill_head_frame owner_id is_buy p v ids o q rest self w s0 :
  bids self = (p, o :: q) :: rest -> market_frame s0 (self, w) ->
  market_frame s0 (snd (fill_head owner_id is_buy p v ids o q (self, w))).
Proof.
  intros Hb (Ha & Hl & Hk & Hv).
  rewrite (fill_head_eq _ _ _ _ _ _ _ _ _ _ Hb). cbv zeta.
  unfold market_frame in *. cbn [fst snd] in *. rewrite Hb in Hk.
  cbn [asks bids _long_volume _short_volume set_bids set_short_volume
         made_deals map fst].
  repeat split; auto. rewrite deals_volume_snoc. cbn [Deal.volume].
  destruct (Z.min (Order.volume o) v <? Order.volume o) eqn:L; [lia|].
  apply Z.ltb_ge in L. lia.
Qed.

Lemma walk_levels_frame fuel owner_id is_buy v ids s r s' :
  walk_levels fuel owner_id is_buy v ids s = (r, s') -> market_frame s s'.
Proof.
  intros H.
  pose proof (walk_levels_rule owner_id is_buy
                (fun _ _ x => market_frame s x) (fun _ x => market_frame s x)) as R.
  specialize (R (fun p v ids o q rest self w Hb HI =>
    ltac:(pose proof (fill_head_frame owner_id is_buy p v ids o q rest self w s Hb HI);
          destruct (fill_head owner_id is_buy p v ids o q (self, w)) as [[v' ids'] s1];
          destruct (v' =? 0); assumption))).
  assert (H0 : market_frame s s) by (repeat split).
  specialize (R fuel v ids s r s' H0 H).
  destruct r as [x|e|].
  - now destruct R as (_ & _ & ?).
  - now destruct R as (_ & _ & _ & _ & ?).
  - now destruct R as (_ & _ & ?).
Qed.

(** A walk only ever returns a list of deal identifiers. *)
Lemma walk_levels_returns fuel owner_id is_buy v ids s x s' :
  walk_levels fuel owner_id is_buy v ids s = (Returned x, s') ->
  exists ids', x = (Some ids', None).
Proof.
  intros H.
  pose proof (walk_levels_rule owner_id is_buy (fun _ _ _ => True)
                (fun _ _ => True)) as R.
  specialize (R (fun p v ids o q rest self w _ _ =>
    ltac:(destruct (fill_head owner_id is_buy p v ids o q (self, w)) as [[v' ids'] s1];
          destruct (v' =? 0); exact Logic.I))).
  destruct (R fuel v ids s _ s' Logic.I H) as (ids' & -> & _). eauto.
Qed.

Lemma submit_market_order_frame fuel owner_id is_buy v s r s' :
  submit_market_order fuel owner_id is_buy v s = (r, s') -> market_frame s s'.
Proof.
  unfold submit_market_order. intros H.
  destruct (negb is_buy); [inversion H; subst; repeat split|].
  destruct (is_buy && (v >? _short_volume (fst s)));
    [inversion H; subst; repeat split|].
  cbn [andb] in H. eapply walk_levels_frame; eauto.
Qed.

(** Each call moves the cached totals by what it rested, less what it
    dealt. *)
Lemma exec_conservation fuel c s r s' :
  exec fuel c s = (r, s') ->
  cached_total s' + deals_volume (made_deals (snd s'))
  = cached_total s + deals_volume (made_deals (snd s)) + accepted_volume c r.
Proof.
  destruct c as [o b p v|o b v]; simpl.
  - destruct (submit_limit_order_cases o b p v s) as [(_ & m & _ & E)|(_ & E)];
      rewrite E.
    + case_reject; intros H; inversion H; subst; simpl; lia.
    + destruct s as [self w]. rewrite rest_limit_order_eq.
      intros H; inversion H; subst. unfold cached_total.
      destruct b; simpl; lia.
  - destruct (submit_market_order fuel o b v s) as [r0 s0] eqn:E.
    intros H; inversion H; subst.
    destruct (submit_market_order_frame _ _ _ _ _ _ _ E) as (_ & Hl & _ & Hv).
    unfold cached_total. rewrite Hl. lia.
Qed.

Lemma run_conservation fuel calls : forall s acc s' acc',
  run fuel calls s acc = Some (s', acc') ->
  cached_total s' + deals_volume (made_deals (snd s'))
  = cached_total s + deals_volume (made_deals (snd s)) + (acc' - acc).
Proof.
  induction calls as [|c calls IH]; simpl; intros s acc s' acc' H.
  - inversion H; subst. lia.
  - destruct (exec fuel c s) as [r s1] eqn:E.
    destruct (finished r); [|discriminate].
    apply IH in H. apply exec_conservation in E. lia.
Qed.

Lemma run_reachable fuel calls : forall s acc s' acc',
  reachable s -> run fuel calls s acc = Some (s', acc') -> reachable s'.
Proof.
  induction calls as [|c calls IH]; simpl; intros s acc s' acc' Hr H.
  - now inversion H; subst.
  - destruct (exec fuel c s) as [r s1] eqn:E.
    destruct (finished r) eqn:F; [|discriminate].
    eapply IH; [|exact H]. eapply reachable_call; eauto.
Qed.

(** * The claims *)

(** C6, as amended.  After any sequence of calls that ran to their end
    from a new book, the resting volume of the two sides together, whether
    recomputed by [longVolume] and [shortVolume] or read from the cached
    totals, is the volume of the accepted limit orders less, once, the
    volume of the deals made. *)
Theorem volume_conservation fuel calls s acc :
  run fuel calls init 0 = Some (s, acc) ->
  longVolume s + shortVolume s = acc - deals_volume (made_deals (snd s))
  /\ cached_total s = acc - deals_volume (made_deals (snd s)).
Proof.
  intros H.
  pose proof (run_conservation _ _ _ _ _ _ H) as Hc.
  pose proof (reachable_ok _ (run_reachable _ _ _ _ _ _ reachable_init H)) as Hok.
  unfold cached_total, longVolume, shortVolume in *.
  rewrite <- (ok_long _ Hok), <- (ok_short _ Hok).
  simpl in Hc. lia.
Qed.

Lemma volume_conservation_witness :
  run 5 sample_calls init 0 = Some (after 5 sample_calls, 12)
  /\ deals_volume (made_deals (snd (after 5 sample_calls))) = 4
  /\ longVolume (after 5 sample_calls) + shortVolume (after 5 sample_calls)
     = 12 - deals_volume (made_deals (snd (after 5 sample_calls))).
Proof.
  split; [reflexivity|]. split; [reflexivity|].
  apply (volume_conservation 5 sample_calls (after 5 sample_calls) 12).
  reflexivity.
Defined.

(** C6 as stated fails twice over: a deal takes its volume off the book
    once, not twice, and a rejected limit order adds nothing. *)
Lemma volume_conservation_not_twice :
  (let calls := [SubmitLimit "a" false 101 10; SubmitMarket "u" true 4] in
   let s := after 5 calls in
   run 5 calls init 0 = Some (s, 10)
   /\ longVolume s + shortVolume s = 6
   /\ deals_volume (made_deals (snd s)) = 4
   /\ longVolume s + shortVolume s
      <> submitted_volume calls - 2 * deals_volume (made_deals (snd s)))
  /\ (let calls := [SubmitLimit "a" false 10 5; SubmitLimit "b" true 10 3] in
      let s := after 5 calls in
      run 5 calls init 0 = Some (s, 5)
      /\ longVolume s + shortVolume s = 5
      /\ deals_volume (made_deals (snd s)) = 0
      /\ longVolume s + shortVolume s
         <> submitted_volume calls - 2 * deals_volume (made_deals (snd s))).
Proof.
  repeat split; vm_compute; congruence.
Qed.

(** [validate] passes exactly on the three conditions it asserts. *)
Lemma validate_spec self :
  validate self = inr tt
  <-> _short_volume self = get_total_short_volume self
      /\ _long_volume self = get_total_long_volume self
      /\ no_cross self.
Proof.
  unfold validate, no_cross, get_min_ask_price, get_max_bid_price.
  destruct (_short_volume self =? get_total_short_volume self) eqn:E1; simpl.
  2:{ apply Z.eqb_neq in E1. split; [discriminate|]. intros (? & _). contradiction. }
  destruct (_long_volume self =? get_total_long_volume self) eqn:E2; simpl.
  2:{ apply Z.eqb_neq in E2. split; [discriminate|]. intros (_ & ? & _). contradiction. }
  apply Z.eqb_eq in E1, E2. rewrite !sd_len_first.
  destruct (asks self) as [|[a qa] ta]; simpl.
  { split; auto. intros _. repeat split; auto. unfold sd_len; simpl. lia. }
  destruct (bids self) as [|[b qb] tb]; simpl.
  { split; auto. intros _. repeat split; auto. unfold sd_len; simpl. lia. }
  destruct (a >? b) eqn:G.
  - split; auto. intros _. repeat split; auto. intros _ _.
    exists a, b. repeat split. rewrite Z.gtb_ltb in G. apply Z.ltb_lt in G. lia.
  - split; [discriminate|]. intros (_ & _ & H).
    destruct H as (a' & b' & Ha & Hb & Hgt); try (unfold sd_len; simpl List.length; lia).
    inversion Ha; inversion Hb; subst.
    rewrite Z.gtb_ltb in G. apply Z.ltb_ge in G. lia.
Qed.

Lemma book_ok_no_cross s : book_ok s -> no_cross (fst s).
Proof.
  intros Hok Ha Hb. unfold get_min_ask_price, get_max_bid_price.
  pose proof (ok_cross _ Hok) as Hc.
  unfold get_min_ask_price, get_max_bid_price in Hc.
  destruct (asks (fst s)) as [|[a qa] ta]; [unfold sd_len in Ha; simpl in Ha; lia|].
  destruct (bids (fst s)) as [|[b qb] tb]; [unfold sd_len in Hb; simpl in Hb; lia|].
  exists a, b. repeat split. now apply Hc.
Qed.

Lemma list_min_in l m : list_min l = Some m -> In m l.
Proof.
  destruct l as [|x tl]; [discriminate|]. cbn [list_min]. intros H.
  inversion H; subst; clear H. induction tl as [|y tl IH]; cbn; [auto|].
  destruct (Z.min_spec y (fold_right Z.min x tl)) as [[_ ->]|[_ ->]]; [auto|].
  cbn in IH. destruct IH; auto.
Qed.

Lemma list_max_in l m : list_max l = Some m -> In m l.
Proof.
  destruct l as [|x tl]; [discriminate|]. cbn [list_max]. intros H.
  inversion H; subst; clear H. induction tl as [|y tl IH]; cbn; [auto|].
  destruct (Z.max_spec y (fold_right Z.max x tl)) as [[_ ->]|[_ ->]];
    [|auto]. cbn in IH. destruct IH; auto.
Qed.

Lemma in_resting (d : list (Z * deque)) o :
  In o (resting d) -> exists k q, In (k, q) d /\ In o q.
Proof.
  unfold resting, sd_values. intros H. apply in_concat in H.
  destruct H as (q & Hq & Ho). apply in_map_iff in Hq.
  destruct Hq as ([k q'] & Heq & Hin). cbn in Heq. subst q'. eauto.
Qed.

(** On a well-formed book, where an order of a side rests and at what
    price. *)
Lemma book_ok_resting_price s side x :
  book_ok s -> In x (resting_prices side (fst s)) ->
  In x (map fst (if side then asks (fst s) else bids (fst s))).
Proof.
  intros Hok Hx. unfold resting_prices, resting_orders in Hx.
  apply in_map_iff in Hx. destruct Hx as (o & Hp & Ho).
  apply filter_In in Ho. destruct Ho as [Ho Hside].
  apply Bool.eqb_prop in Hside. apply in_app_iff in Ho.
  pose proof (ok_bids_levels _ Hok) as Hb.
  pose proof (ok_asks_levels _ Hok) as Ha.
  rewrite Forall_forall in Hb, Ha.
  destruct Ho as [Ho|Ho]; apply in_resting in Ho;
    destruct Ho as (k & q & Hin & Hoq).
  - destruct (Hb _ Hin) as [Hall _]. rewrite Forall_forall in Hall.
    destruct (Hall o Hoq) as (Hs & Hk & _). cbn [fst] in Hk.
    rewrite Hs in Hside. subst side. subst x. rewrite Hk.
    now apply (in_map fst) in Hin.
  - destruct (Ha _ Hin) as [Hall _]. rewrite Forall_forall in Hall.
    destruct (Hall o Hoq) as (Hs & Hk & _). cbn [fst] in Hk.
    rewrite Hs in Hside. subst side. subst x. rewrite Hk.
    now apply (in_map fst) in Hin.
Qed.

Lemma book_ok_keys_apart s a b :
  book_ok s ->
  In a (map fst (asks (fst s))) -> In b (map fst (bids (fst s))) -> b < a.
Proof.
  intros Hok Ha Hb.
  pose proof (sd_first_least bids_key (bids (fst s))) as Hmax.
  pose proof (sd_first_least asks_key (asks (fst s))) as Hmin.
  pose proof (ok_cross _ Hok) as Hc.
  pose proof (ok_bids_sorted _ Hok) as Hsb.
  pose proof (ok_asks_sorted _ Hok) as Hsa.
  unfold get_max_bid_price, get_min_ask_price in *.
  destruct (asks (fst s)) as [|[a0 qa] ta]; [destruct Ha|].
  destruct (bids (fst s)) as [|[b0 qb] tb]; [destruct Hb|].
  specialize (Hc a0 b0 eq_refl eq_refl).
  specialize (Hmax b0 b Hsb eq_refl Hb). specialize (Hmin a0 a Hsa eq_refl Ha).
  unfold bids_key, asks_key in *. lia.
Qed.

(** C3, as amended.  In every state reached by calls that ran to their
    end, if both stores have a level then [get_min_ask_price], the first
    key of [asks], is above [get_max_bid_price], the first key of [bids];
    [validate] passes there, and what it asserts is this condition next
    to the agreement of the two cached totals.  But [asks] holds the buy
    orders and [bids] the sell orders, so that by the side of the orders
    the book is crossed: whenever a sell and a buy both rest, the lowest
    price of a sell is below the highest price of a buy. *)
Theorem no_cross_invariant s :
  reachable s ->
  no_cross (fst s)
  /\ validate (fst s) = inr tt
  /\ (forall self,
         validate self = inr tt
         <-> _short_volume self = get_total_short_volume self
             /\ _long_volume self = get_total_long_volume self
             /\ no_cross self)
  /\ (forall o, In o (resting (asks (fst s))) -> Order.is_buy o = true)
  /\ (forall o, In o (resting (bids (fst s))) -> Order.is_buy o = false)
  /\ (forall sp bp,
         best_sell_price (fst s) = Some sp ->
         best_buy_price (fst s) = Some bp -> sp < bp).
Proof.
  intros Hr. pose proof (reachable_ok _ Hr) as Hok.
  pose proof (ok_bids_levels _ Hok) as Hb.
  pose proof (ok_asks_levels _ Hok) as Ha.
  rewrite Forall_forall in Hb, Ha.
  split; [now apply book_ok_no_cross|]. split; [|split; [exact validate_spec|]].
  { apply validate_spec. repeat split.
    - apply (ok_short _ Hok).
    - apply (ok_long _ Hok).
    - now apply book_ok_no_cross. }
  split; [|split].
  - intros o Ho. apply in_resting in Ho. destruct Ho as (k & q & Hin & Hoq).
    destruct (Ha _ Hin) as [Hall _]. rewrite Forall_forall in Hall.
    now destruct (Hall o Hoq).
  - intros o Ho. apply in_resting in Ho. destruct Ho as (k & q & Hin & Hoq).
    destruct (Hb _ Hin) as [Hall _]. rewrite Forall_forall in Hall.
    now destruct (Hall o Hoq).
  - intros sp bp Hs Hbp. unfold best_sell_price in Hs. unfold best_buy_price in Hbp.
    apply list_min_in in Hs. apply list_max_in in Hbp.
    apply (book_ok_resting_price s false sp Hok) in Hs.
    apply (book_ok_resting_price s true bp Hok) in Hbp.
    exact (book_ok_keys_apart s bp sp Hok Hbp Hs).
Qed.

Lemma no_cross_invariant_witness :
  get_min_ask_price (fst (after 5 sample_calls)) = inr 105
  /\ get_max_bid_price (fst (after 5 sample_calls)) = inr 101
  /\ best_sell_price (fst (after 5 sample_calls)) = Some 101
  /\ best_buy_price (fst (after 5 sample_calls)) = Some 105
  /\ validate (fst (after 5 sample_calls)) = inr tt
  /\ 101 < 105.
Proof.
  assert (Hr : reachable (after 5 sample_calls)).
  { apply (run_reachable 5 sample_calls init 0 _ 12 reachable_init).
    vm_compute. reflexivity. }
  split; [vm_compute; reflexivity|]. split; [vm_compute; reflexivity|].
  split; [vm_compute; reflexivity|]. split; [vm_compute; reflexivity|].
  destruct (no_cross_invariant (after 5 sample_calls) Hr)
    as (_ & Hv & _ & _ & _ & Hx).
  split; [exact Hv|]. apply Hx; vm_compute; reflexivity.
Defined.

(** C3 as stated fails.  After a sell is rested at 101 and a buy at 105,
    both sides are non-empty and [validate] passes; the best sell price,
    101, is below the best buy price, 105, not above it. *)
Lemma best_sell_is_below_best_buy :
  let s := after 5 sample_calls in
  map (fun o => (Order.is_buy o, Order.price o)) (resting_orders (fst s))
  = [(false, 101); (true, 105)]
  /\ validate (fst s) = inr tt
  /\ best_sell_price (fst s) = Some 101
  /\ best_buy_price (fst s) = Some 105
  /\ ~ (101 > 105).
Proof.
  cbv zeta. repeat split; try (vm_compute; reflexivity). lia.
Qed.

Lemma resting_ids side n d o :
  Forall (level_ok side n) d -> In o (resting d) ->
  (Order.order_id o < n)%nat.
Proof.
  unfold resting, sd_values. induction 1 as [|[k q] tl [Hq _] _ IH]; simpl.
  - intros [].
  - rewrite in_app_iff. intros [Hin|Hin]; [|now apply IH].
    simpl in Hq. rewrite Forall_forall in Hq. now apply Hq.
Qed.

(** An order that passes the two guards rests behind the others of its
    level, in [asks] for a buy and in [bids] for a sell. *)
Lemma accepted_limit_order_rests owner_id is_buy price volume s :
  ~ crosses is_buy price (fst s) ->
  let o := Order.mk owner_id is_buy price volume "" (uuid_next (snd s)) in
  let queue d := match sd_get price d with Some q => q | None => [] end in
  exists s',
    submit_limit_order owner_id is_buy price volume s
    = (Returned (Some (uuid_next (snd s)), None), s')
    /\ uuid_next (snd s') = S (uuid_next (snd s))
    /\ made_deals (snd s') = made_deals (snd s)
    /\ (if is_buy
        then sd_get price (asks (fst s'))
             = Some (queue (asks (fst s)) ++ [o])
             /\ (forall k, k <> price ->
                   sd_get k (asks (fst s')) = sd_get k (asks (fst s)))
             /\ bids (fst s') = bids (fst s)
             /\ _long_volume (fst s') = _long_volume (fst s) + volume
             /\ _short_volume (fst s') = _short_volume (fst s)
        else sd_get price (bids (fst s'))
             = Some (queue (bids (fst s)) ++ [o])
             /\ (forall k, k <> price ->
                   sd_get k (bids (fst s')) = sd_get k (bids (fst s)))
             /\ asks (fst s') = asks (fst s)
             /\ _short_volume (fst s') = _short_volume (fst s) + volume
             /\ _long_volume (fst s') = _long_volume (fst s)).
Proof.
  intros Hnc o queue.
  destruct (submit_limit_order_cases owner_id is_buy price volume s)
    as [(Hc & _)|(_ & E)]; [contradiction|].
  rewrite E. destruct s as [self w]. rewrite rest_limit_order_eq.
  eexists. split; [reflexivity|]. cbn [fst snd uuid_next made_deals].
  split; [reflexivity|]. split; [reflexivity|]. fold o. subst queue.
  destruct is_buy; cbn [asks bids set_asks set_bids set_long_volume
                          set_short_volume _long_volume _short_volume].
  - rewrite sd_get_set_same. repeat split; auto.
    + now destruct (sd_get price (asks self)).
    + intros k Hk. now apply sd_get_set_other.
  - rewrite sd_get_set_same. repeat split; auto.
    + now destruct (sd_get price (bids self)).
    + intros k Hk. now apply sd_get_set_other.
Qed.




Lemma submit_market_order_sell fuel owner_id v s :
  submit_market_order fuel owner_id false v s
  = (Returned (None, Some short_unsupported_msg), s).
Proof. reflexivity. Qed.

Lemma submit_market_order_exceeds fuel owner_id v s :
  v > _short_volume (fst s) ->
  submit_market_order fuel owner_id true v s
  = (reject (exceeds_short_msg v (_short_volume (fst s))), s).
Proof.
  intros H. unfold submit_market_order. cbn [negb andb].
  replace (v >? _short_volume (fst s)) with true; [reflexivity|].
  symmetry. rewrite Z.gtb_ltb. apply Z.ltb_lt. lia.
Qed.

Lemma submit_market_order_rejected fuel owner_id is_buy v s y s' :
  submit_market_order fuel owner_id is_buy v s = (Returned (None, y), s') ->
  s' = s /\ exists reason, y = Some reason.
Proof.
  unfold submit_market_order.
  destruct (negb is_buy); [intros H; inversion H; subst; eauto|].
  destruct (is_buy && (v >? _short_volume (fst s))).
  { case_reject; intros H; inversion H; subst; eauto. }
  cbn [andb]. intros H. apply walk_levels_returns in H.
  destruct H as (ids & H). discriminate.
Qed.

Lemma submit_limit_order_rejected owner_id is_buy price volume s y s' :
  submit_limit_order owner_id is_buy price volume s = (Returned (None, y), s') ->
  s' = s /\ exists reason, y = Some reason.
Proof.
  destruct (submit_limit_order_cases owner_id is_buy price volume s)
    as [(_ & m & _ & E)|(_ & E)]; rewrite E.
  - case_reject; intros H; inversion H; subst; eauto.
  - destruct s as [self w]. rewrite rest_limit_order_eq. discriminate.
Qed.

Lemma int_max_str_limit_eq : int_max_str_limit = 10 ^ int_max_str_digits.
Proof. vm_compute. reflexivity. Qed.

(** The power of ten with one digit too many does not print. *)
Lemma unprintable_limit : printable (10 ^ int_max_str_digits) = false.
Proof.
  unfold printable. rewrite int_max_str_limit_eq.
  rewrite Z.abs_eq; [apply Z.ltb_irrefl|].
  apply Z.pow_nonneg. discriminate.
Qed.

(** C5, as amended.  A limit order that crosses, a market order for the
    sell side, and a buy market order for more than the volume resting in
    [bids] each leave the book and the world as they were.  The sell
    market order returns its fixed reason; the other two return
    [(None, reason)] when the two integers quoted in the reason print,
    and raise [ValueError] out of the f-string otherwise.  Whenever a
    submission returns [(None, _)], a reason is there and nothing has
    changed. *)
Theorem rejection_is_noop :
  (forall (owner_id : USER_ID) (is_buy : bool) (price volume : Z)
          (s : state) (m : Z),
      (if is_buy then get_max_bid_price (fst s) else get_min_ask_price (fst s))
      = inr m ->
      (if is_buy then price <= m else price >= m) ->
      snd (submit_limit_order owner_id is_buy price volume s) = s
      /\ (printable price = true -> printable m = true ->
          exists reason,
            fst (submit_limit_order owner_id is_buy price volume s)
            = Returned (None, Some reason))
      /\ (printable price = false \/ printable m = false ->
          fst (submit_limit_order owner_id is_buy price volume s)
          = Raised ValueError))
  /\ (forall fuel owner_id volume s,
         submit_market_order fuel owner_id false volume s
         = (Returned (None, Some "Short Market Orders currently not supported!"%string), s))
  /\ (forall fuel owner_id volume s,
         reachable s -> volume > shortVolume s ->
         snd (submit_market_order fuel owner_id true volume s) = s
         /\ (printable volume = true -> printable (shortVolume s) = true ->
             fst (submit_market_order fuel owner_id true volume s)
             = Returned (None, Some ("volume=" ++ decimal volume
                                     ++ ">self._short_volume="
                                     ++ decimal (shortVolume s) ++ "!")%string))
         /\ (printable volume = false \/ printable (shortVolume s) = false ->
             fst (submit_market_order fuel owner_id true volume s)
             = Raised ValueError))
  /\ (forall owner_id is_buy price volume s y s',
         submit_limit_order owner_id is_buy price volume s
         = (Returned (None, y), s') ->
         s' = s /\ exists reason, y = Some reason)
  /\ (forall fuel owner_id is_buy volume s y s',
         submit_market_order fuel owner_id is_buy volume s
         = (Returned (None, y), s') ->
         s' = s /\ exists reason, y = Some reason).
Proof.
  split; [|split; [|split; [|split]]].
  - intros o b p v s m Hm Hle.
    destruct (submit_limit_order_cases o b p v s)
      as [(_ & m' & Hm' & E)|(Hnc & _)].
    + rewrite Hm in Hm'. inversion Hm'; subst m'. rewrite E. cbn [fst snd].
      split; [reflexivity|].
      destruct b; unfold reject_buy_msg, reject_sell_msg;
        match goal with |- context [fstring2 ?a ?x ?b ?y ?c] =>
          destruct (fstring2_cases a x b y c) as [(Hx & Hy & ->)|(Hxy & ->)] end;
        cbn [reject]; (split; [eauto|]); intros; try reflexivity;
        try (destruct Hxy; congruence);
        match goal with H : _ \/ _ |- _ => destruct H; congruence end.
    + exfalso. apply Hnc. unfold crosses. destruct b; eauto.
  - intros. apply submit_market_order_sell.
  - intros fuel o v s Hr Hv. unfold shortVolume in *.
    rewrite <- (ok_short _ (reachable_ok _ Hr)) in *.
    rewrite (submit_market_order_exceeds fuel o v s Hv). cbn [fst snd].
    split; [reflexivity|]. unfold exceeds_short_msg.
    destruct (fstring2_cases "volume=" v ">self._short_volume="
                (_short_volume (fst s)) "!")
      as [(Hx & Hy & ->)|(Hxy & ->)]; cbn [reject].
    + split; [reflexivity|]. intros [H|H]; congruence.
    + split; [|reflexivity]. intros H1 H2. destruct Hxy; congruence.
  - intros. eapply submit_limit_order_rejected; eauto.
  - intros. eapply submit_market_order_rejected; eauto.
Qed.

Lemma rejection_is_noop_witness :
  snd (submit_market_order 9 "u" true 11 (after 5 sample_calls))
  = after 5 sample_calls
  /\ fst (submit_market_order 9 "u" true 11 (after 5 sample_calls))
     = Returned (None, Some "volume=11>self._short_volume=6!"%string).
Proof.
  destruct (proj1 (proj2 (proj2 rejection_is_noop)) 9%nat "u"%string 11
              (after 5 sample_calls)) as (Hs & Hr & _).
  - apply (run_reachable 5 sample_calls init 0 _ 12 reachable_init).
    vm_compute. reflexivity.
  - vm_compute. reflexivity.
  - split; [exact Hs|]. apply Hr; vm_compute; reflexivity.
Defined.

(** A buy market order for 10^4300 on a new book raises [ValueError]
    whatever the step budget: the volume guard fires and its reason
    cannot be printed. *)
Lemma unprintable_market_order_raises fuel :
  submit_market_order fuel "u" true (10 ^ 4300) init
  = (Raised ValueError, init).
Proof.
  change (10 ^ 4300) with (10 ^ int_max_str_digits).
  rewrite submit_market_order_exceeds.
  - unfold exceeds_short_msg, fstring2, str. rewrite unprintable_limit.
    reflexivity.
  - change (_short_volume (fst init)) with 0.
    apply Z.lt_gt. apply Z.pow_pos_nonneg; [reflexivity|discriminate].
Qed.

(** C5 as stated fails.  A buy market order for 10^4300 on a new book is
    for more than rests, but the reason that would be returned has to
    print that volume, which has 4301 digits: the call raises
    [ValueError] and returns no pair.  The book is unchanged. *)
Lemma rejection_can_raise_instead :
  10 ^ 4300 > _short_volume (fst init)
  /\ submit_market_order 1 "u" true (10 ^ 4300) init
     = (Raised ValueError, init).
Proof.
  split; [|apply unprintable_market_order_raises].
  change (_short_volume (fst init)) with 0.
  apply Z.lt_gt. apply Z.pow_pos_nonneg; [reflexivity|discriminate].
Qed.

(** C10, as amended.  A limit order of volume at most 0 that passes the
    two guards raises nothing and is accepted like any other: the
    identifier returned is newly drawn, no resting order and no deal
    carries it, the order is put at the tail of its price level, and the
    cached total of its side moves by the volume submitted. *)
Theorem nonpositive_limit_order_rests owner_id is_buy price volume s :
  reachable s -> volume <= 0 -> ~ crosses is_buy price (fst s) ->
  let o := Order.mk owner_id is_buy price volume "" (uuid_next (snd s)) in
  let queue d := match sd_get price d with Some q => q | None => [] end in
  exists s',
    submit_limit_order owner_id is_buy price volume s
    = (Returned (Some (uuid_next (snd s)), None), s')
    /\ (forall x, In x (resting (bids (fst s)) ++ resting (asks (fst s))) ->
          Order.order_id x <> uuid_next (snd s))
    /\ (forall d, In d (made_deals (snd s)) ->
          Deal.deal_id d <> uuid_next (snd s)
          /\ Deal.order_id_client d <> uuid_next (snd s)
          /\ Deal.order_id_market d <> uuid_next (snd s))
    /\ (if is_buy
        then sd_get price (asks (fst s')) = Some (queue (asks (fst s)) ++ [o])
             /\ _long_volume (fst s') = _long_volume (fst s) + volume
             /\ _short_volume (fst s') = _short_volume (fst s)
        else sd_get price (bids (fst s')) = Some (queue (bids (fst s)) ++ [o])
             /\ _short_volume (fst s') = _short_volume (fst s) + volume
             /\ _long_volume (fst s') = _long_volume (fst s)).
Proof.
  intros Hr _ Hnc o queue. pose proof (reachable_ok _ Hr) as Hok.
  destruct (accepted_limit_order_rests owner_id is_buy price volume s Hnc)
    as (s' & E & _ & _ & Hq).
  exists s'. split; [exact E|]. split; [|split].
  - intros x Hin. apply in_app_iff in Hin.
    assert ((Order.order_id x < uuid_next (snd s))%nat); [|lia].
    destruct Hin as [Hin|Hin].
    + eapply resting_ids; [apply (ok_bids_levels _ Hok)|exact Hin].
    + eapply resting_ids; [apply (ok_asks_levels _ Hok)|exact Hin].
  - intros d Hin. pose proof (ok_deals _ Hok) as Hd.
    rewrite Forall_forall in Hd. destruct (Hd d Hin) as (? & ? & ?). lia.
  - fold o in Hq. fold queue in Hq. destruct is_buy; tauto.
Qed.

Lemma nonpositive_limit_order_rests_witness :
  exists s',
    submit_limit_order "z" false 100 (-3) (after 5 sample_calls)
    = (Returned (Some 4%nat, None), s')
    /\ sd_get 100 (bids (fst s'))
       = Some [Order.mk "z" false 100 (-3) "" 4%nat]
    /\ _short_volume (fst s') = 3.
Proof.
  destruct (nonpositive_limit_order_rests "z" false 100 (-3)
              (after 5 sample_calls)) as (s' & E & _ & _ & Hq & Hv & _).
  - apply (run_reachable 5 sample_calls init 0 _ 12 reachable_init).
    reflexivity.
  - lia.
  - intros (m & Hm & Hle). inversion Hm; subst. lia.
  - exists s'. split; [exact E|]. split; [exact Hq|exact Hv].
Defined.

(** C10 as stated fails: the guards do not look at the volume, so an
    order of volume 0 that crosses is rejected like any other. *)
Lemma nonpositive_limit_order_can_be_rejected :
  submit_limit_order "u" true 5 0 (after 1 [SubmitLimit "a" false 10 1])
  = (Returned (None, Some "Rejected order ask price '5', lower than 10."%string),
     after 1 [SubmitLimit "a" false 10 1]).
Proof. reflexivity. Qed.

(** Once the first level of [bids] has an empty queue the outer loop reads
    the same level for ever. *)
Lemma walk_levels_stuck fuel owner_id is_buy v ids self w p rest :
  bids self = (p, []) :: rest ->
  walk_levels fuel owner_id is_buy v ids (self, w) = (Spinning, (self, w)).
Proof.
  intros Hb. induction fuel as [|fuel IH]; [reflexivity|].
  cbn [walk_levels fst]. unfold get_max_bid_price. rewrite Hb. cbn [sd_first].
  destruct fuel as [|fuel]; [reflexivity|].
  cbn [fill_level fst]. rewrite Hb. cbn [sd_get]. rewrite Z.eqb_refl.
  exact IH.
Qed.

Lemma queue_volume_nonneg q :
  Forall (fun o => 0 < Order.volume o) q -> 0 <= queue_volume q.
Proof.
  induction 1 as [|o q Ho _ IH]; [reflexivity|].
  rewrite queue_volume_cons. lia.
Qed.

(** A request for more than the first level holds empties that level and
    leaves the inner loop with volume still wanted. *)
Lemma fill_level_drains owner_id is_buy p rest q :
  Forall (fun o => 0 < Order.volume o) q ->
  forall fuel v ids self w,
    bids self = (p, q) :: rest -> queue_volume q < v ->
    exists ex self' w',
      fill_level fuel owner_id is_buy p v ids (self, w) = (ex, (self', w'))
      /\ (ex = LevelSpin
          \/ exists v' ids',
               ex = LevelDone v' ids' /\ bids self' = (p, []) :: rest).
Proof.
  induction 1 as [|o q Ho Hq IH]; intros fuel v ids self w Hb Hv.
  - destruct fuel as [|fuel]; [cbn; eauto 6|].
    cbn [fill_level fst]. rewrite Hb. cbn [sd_get]. rewrite Z.eqb_refl.
    eauto 10.
  - destruct fuel as [|fuel]; [cbn; eauto 6|].
    cbn [fill_level fst]. rewrite Hb. cbn [sd_get]. rewrite Z.eqb_refl.
    rewrite (fill_head_eq _ _ _ _ _ _ _ _ _ _ Hb). cbv zeta.
    rewrite queue_volume_cons in Hv.
    pose proof (queue_volume_nonneg q Hq) as Hn.
    replace (Z.min (Order.volume o) v) with (Order.volume o) by lia.
    rewrite Z.ltb_irrefl.
    replace (v - Order.volume o =? 0) with false
      by (symmetry; apply Z.eqb_neq; lia).
    apply IH; [reflexivity|lia].
Qed.

(** The defect behind C1: a buy market order that needs more than the
    first level of [bids] holds never returns, whatever else rests. *)
Lemma market_order_beyond_first_level fuel owner_id v self w p q rest :
  bids self = (p, q) :: rest ->
  Forall (fun o => 0 < Order.volume o) q ->
  queue_volume q < v <= _short_volume self ->
  fst (submit_market_order fuel owner_id true v (self, w)) = Spinning.
Proof.
  intros Hb Hq [Hlo Hhi]. unfold submit_market_order. cbn [negb andb fst].
  replace (v >? _short_volume self) with false
    by (symmetry; rewrite Z.gtb_ltb; apply Z.ltb_ge; lia).
  destruct fuel as [|fuel]; [reflexivity|].
  cbn [walk_levels fst]. unfold get_max_bid_price. rewrite Hb. cbn [sd_first].
  destruct (fill_level_drains owner_id true p rest q Hq fuel v [] self w Hb Hlo)
    as (ex & self' & w' & E & [->|(v' & ids' & -> & Hb')]); rewrite E.
  - reflexivity.
  - now rewrite (walk_levels_stuck fuel owner_id true v' ids' self' w' p rest Hb').
Qed.

(** C1 fails on the code.  With one order of volume 1 resting at 10 and
    one at 9, a buy market order for 2, which is what rests, empties the
    level at 10 and then reads that same level again and again: no amount
    of steps brings a result. *)
Theorem market_order_across_levels_spins :
  let s := after 1 [SubmitLimit "a" false 9 1; SubmitLimit "b" false 10 1] in
  shortVolume s = 2
  /\ map fst (bids (fst s)) = [10; 9]
  /\ forall fuel, fst (submit_market_order fuel "u" true 2 s) = Spinning.
Proof.
  cbv zeta. split; [reflexivity|]. split; [reflexivity|]. intros fuel.
  apply (market_order_beyond_first_level fuel "u" 2 _ _ 10
           [Order.mk "b" false 10 1 "" 1%nat]
           [(9, [Order.mk "a" false 9 1 "" 0%nat])]).
  - reflexivity.
  - repeat constructor.
  - cbn. lia.
Qed.

(** C2 fails on the code.  A buy market order for the whole of the only
    resting order returns its one deal and leaves the level at 10 in
    [bids] with an empty queue: it is still the first key, and a sell
    then rested at 9 cannot be reached by any later market order. *)
Theorem emptied_level_is_kept :
  (let s := after 1 [SubmitLimit "a" false 10 1] in
   forall n,
     fst (submit_market_order (S (S n)) "u" true 1 s)
     = Returned (Some [2%nat], None)
     /\ bids (fst (snd (submit_market_order (S (S n)) "u" true 1 s)))
        = [(10, [])]
     /\ get_max_bid_price (fst (snd (submit_market_order (S (S n)) "u" true 1 s)))
        = inr 10)
  /\ (let s := after 3 [SubmitLimit "a" false 10 1; SubmitMarket "u" true 1;
                        SubmitLimit "b" false 9 1] in
      map fst (bids (fst s)) = [10; 9]
      /\ sd_get 10 (bids (fst s)) = Some []
      /\ shortVolume s = 1
      /\ forall fuel, fst (submit_market_order fuel "v" true 1 s) = Spinning).
Proof.
  split; cbv zeta.
  - intros n. repeat split; vm_compute; reflexivity.
  - split; [vm_compute; reflexivity|]. split; [vm_compute; reflexivity|].
    split; [vm_compute; reflexivity|]. intros fuel.
    apply (market_order_beyond_first_level fuel "v" 1 _ _ 10 []
             [(9, [Order.mk "b" false 9 1 "" 3%nat])]).
    + vm_compute. reflexivity.
    + constructor.
    + vm_compute. split; [reflexivity|discriminate].
Qed.

(** ** Positive volumes *)

Lemma sd_get_resting k q (d : list (Z * deque)) x :
  sd_get k d = Some q -> In x q -> In x (resting d).
Proof.
  unfold resting, sd_values.
  induction d as [|[k' q'] tl IH]; simpl; [discriminate|].
  rewrite in_app_iff. destruct (k =? k').
  - intros H; inversion H; subst. auto.
  - auto.
Qed.

Lemma sd_set_resting key k q (d : list (Z * deque)) x :
  In x (resting (sd_set key k q d)) -> In x q \/ In x (resting d).
Proof.
  unfold resting, sd_values.
  induction d as [|[k' q'] tl IH]; simpl.
  - rewrite app_nil_r. auto.
  - destruct (k =? k'); simpl.
    + rewrite !in_app_iff. tauto.
    + destruct (key k <? key k'); simpl.
      * rewrite !in_app_iff. tauto.
      * rewrite !in_app_iff. intros [H|H]; [tauto|].
        destruct (IH H); tauto.
Qed.

Lemma submit_limit_order_positive owner_id is_buy price volume s r s' :
  is_buy = true \/ 0 < volume ->
  positive_bids (fst s) ->
  submit_limit_order owner_id is_buy price volume s = (r, s') ->
  positive_bids (fst s') /\ made_deals (snd s') = made_deals (snd s).
Proof.
  intros Hv Hp.
  destruct (submit_limit_order_cases owner_id is_buy price volume s)
    as [(_ & m & _ & E)|(_ & E)]; rewrite E.
  - intros H; inversion H; subst. auto.
  - destruct s as [self w]. rewrite rest_limit_order_eq.
    intros H; inversion H; subst; clear H. split; [|reflexivity].
    destruct is_buy; [exact Hp|]. destruct Hv as [|Hv]; [discriminate|].
    unfold positive_bids in *. cbn [fst bids set_bids] in *.
    rewrite Forall_forall in *. intros x Hx.
    apply sd_set_resting in Hx. destruct Hx as [Hx|Hx]; [|auto].
    destruct (sd_get price (bids self)) as [q|] eqn:G.
    + apply in_app_iff in Hx. destruct Hx as [Hx|[<-|[]]]; [|exact Hv].
      apply Hp. eapply sd_get_resting; eauto.
    + destruct Hx as [<-|[]]. exact Hv.
Qed.

Lemma fill_head_positive owner_id is_buy p v ids o q rest self w :
  bids self = (p, o :: q) :: rest ->
  0 < v -> positive_bids self -> positive_deals w ->
  let '(v', ids', s') := fill_head owner_id is_buy p v ids o q (self, w) in
  0 <= v' /\ positive_bids (fst s') /\ positive_deals (snd s').
Proof.
  intros Hb Hv Hp Hd. rewrite (fill_head_eq _ _ _ _ _ _ _ _ _ _ Hb). cbv zeta.
  unfold positive_bids, positive_deals, resting, sd_values in *.
  cbn [fst snd bids set_bids set_short_volume made_deals].
  rewrite Hb in Hp. cbn [map snd List.concat] in *.
  apply Forall_app in Hp. destruct Hp as [Hq Hrest].
  inversion Hq as [|? ? Ho Hq']; subst.
  split; [lia|]. split.
  - apply Forall_app. split; [|exact Hrest].
    destruct (Z.min (Order.volume o) v <? Order.volume o) eqn:L; [|exact Hq'].
    apply Z.ltb_lt in L. constructor; [cbn; lia|exact Hq'].
  - apply Forall_app. split; [exact Hd|]. constructor; [cbn; lia|constructor].
Qed.

Lemma submit_market_order_positive fuel owner_id is_buy v s r s' :
  0 < v -> positive_bids (fst s) -> positive_deals (snd s) ->
  submit_market_order fuel owner_id is_buy v s = (r, s') ->
  positive_bids (fst s') /\ positive_deals (snd s').
Proof.
  intros Hv Hp Hd. unfold submit_market_order.
  destruct (negb is_buy); [intros H; inversion H; subst; auto|].
  destruct (is_buy && (v >? _short_volume (fst s)));
    [intros H; inversion H; subst; auto|].
  cbn [andb]. intros H.
  pose proof (walk_levels_rule owner_id is_buy
    (fun v _ x => 0 < v /\ positive_bids (fst x) /\ positive_deals (snd x))
    (fun _ x => positive_bids (fst x) /\ positive_deals (snd x))) as R.
  assert (Hbody : forall p v ids o q rest self w,
    bids self = (p, o :: q) :: rest ->
    0 < v /\ positive_bids (fst (self, w)) /\ positive_deals (snd (self, w)) ->
    let '(v', ids', s1) := fill_head owner_id is_buy p v ids o q (self, w) in
    if v' =? 0 then positive_bids (fst s1) /\ positive_deals (snd s1)
    else 0 < v' /\ positive_bids (fst s1) /\ positive_deals (snd s1)).
  { intros p v0 ids o q rest self w Hb (H0 & H1 & H2).
    pose proof (fill_head_positive owner_id is_buy p v0 ids o q rest self w
                  Hb H0 H1 H2) as F.
    destruct (fill_head owner_id is_buy p v0 ids o q (self, w)) as [[v' ids'] s1].
    destruct F as (F0 & F1 & F2).
    destruct (v' =? 0) eqn:Z0; [auto|]. apply Z.eqb_neq in Z0.
    repeat split; auto; lia. }
  specialize (R Hbody fuel v [] s r s' (conj Hv (conj Hp Hd)) H).
  destruct r as [x|e|].
  - now destruct R as (_ & _ & ?).
  - destruct R as (_ & _ & _ & _ & _ & ?). assumption.
  - destruct R as (_ & _ & _ & ?). assumption.
Qed.

Lemma exec_positive fuel c s r s' :
  positive_call c -> positive_bids (fst s) -> positive_deals (snd s) ->
  exec fuel c s = (r, s') ->
  positive_bids (fst s') /\ positive_deals (snd s').
Proof.
  destruct c as [o b p v|o b v]; simpl; intros Hc Hp Hd.
  - destruct (submit_limit_order o b p v s) as [r0 s0] eqn:E.
    intros H; inversion H; subst.
    destruct (submit_limit_order_positive _ _ _ _ _ _ _ Hc Hp E) as [? Hm].
    split; [assumption|]. unfold positive_deals. now rewrite Hm.
  - destruct (submit_market_order fuel o b v s) as [r0 s0] eqn:E.
    intros H; inversion H; subst.
    eapply submit_market_order_positive; eauto.
Qed.

Lemma run_positive fuel calls : forall s acc s' acc',
  Forall positive_call calls ->
  positive_bids (fst s) -> positive_deals (snd s) ->
  run fuel calls s acc = Some (s', acc') ->
  positive_bids (fst s') /\ positive_deals (snd s').
Proof.
  induction calls as [|c calls IH]; simpl; intros s acc s' acc' Hc Hp Hd H.
  - inversion H; subst. auto.
  - inversion Hc as [|? ? Hc1 Hc2]; subst.
    destruct (exec fuel c s) as [r s1] eqn:E.
    destruct (finished r); [|discriminate].
    destruct (exec_positive _ _ _ _ _ Hc1 Hp Hd E) as [Hp1 Hd1].
    eapply IH; eauto.
Qed.

(** C9, as amended.  When every sell limit order and every market order
    of a sequence asks for a positive volume, every deal made has a
    positive volume, those of a market order that is still looping
    included, and every order resting in [bids] keeps a positive volume. *)
Theorem deals_have_positive_volume fuel calls s acc fuel' c r s' :
  Forall positive_call calls ->
  run fuel calls init 0 = Some (s, acc) ->
  positive_call c ->
  exec fuel' c s = (r, s') ->
  positive_deals (snd s) /\ positive_deals (snd s')
  /\ positive_bids (fst s) /\ positive_bids (fst s').
Proof.
  intros Hcs Hrun Hc He.
  assert (H0 : positive_bids (fst init) /\ positive_deals (snd init))
    by (split; constructor).
  destruct H0 as [Hp0 Hd0].
  destruct (run_positive _ _ _ _ _ _ Hcs Hp0 Hd0 Hrun) as [Hp Hd].
  destruct (exec_positive _ _ _ _ _ Hc Hp Hd He) as [Hp' Hd'].
  auto.
Qed.

Lemma deals_have_positive_volume_witness :
  map Deal.volume
    (made_deals (snd (snd (exec 9 (SubmitMarket "v" true 6)
                             (after 5 sample_calls)))))
  = [4; 6]
  /\ positive_deals (snd (snd (exec 9 (SubmitMarket "v" true 6)
                                 (after 5 sample_calls)))).
Proof.
  split; [vm_compute; reflexivity|].
  refine (proj1 (proj2 (deals_have_positive_volume 5 sample_calls
                          (after 5 sample_calls) 12 9 (SubmitMarket "v" true 6)
                          (fst (exec 9 (SubmitMarket "v" true 6)
                                  (after 5 sample_calls)))
                          (snd (exec 9 (SubmitMarket "v" true 6)
                                  (after 5 sample_calls)))
                          _ _ _ _))).
  - unfold sample_calls. repeat constructor; cbn; lia.
  - vm_compute. reflexivity.
  - cbn. lia.
  - apply surjective_pairing.
Defined.

(** C9 as stated fails.  A market order for volume 0 is accepted and makes
    one deal of volume 0 with the order at the head of the first level;
    and a limit order of volume -2, which is accepted, later yields a
    deal of volume -2 to a market order for 3. *)
Lemma zero_volume_market_order_makes_zero_deal :
  (let s := after 1 [SubmitLimit "a" false 101 10] in
   fst (submit_market_order 5 "u" true 0 s) = Returned (Some [2%nat], None)
   /\ map Deal.volume
        (made_deals (snd (snd (submit_market_order 5 "u" true 0 s)))) = [0])
  /\ (let s := after 1 [SubmitLimit "a" false 10 (-2);
                        SubmitLimit "b" false 10 5] in
      fst (submit_market_order 5 "u" true 3 s)
      = Returned (Some [3%nat; 5%nat], None)
      /\ map Deal.volume
           (made_deals (snd (snd (submit_market_order 5 "u" true 3 s))))
         = [-2; 5]).
Proof.
  repeat split; vm_compute; reflexivity.
Qed.

(** ** One order, partly filled *)

Lemma resting_nil_total (d : list (Z * deque)) :
  resting d = [] -> zsum (map queue_volume (sd_values d)) = 0.
Proof.
  unfold resting, sd_values. induction d as [|[k q] tl IH]; simpl; [reflexivity|].
  intros H. apply app_eq_nil in H. destruct H as [-> H]. rewrite (IH H).
  reflexivity.
Qed.

(** C8, as amended.  In a book whose one resting order is a sell queued
    alone at the first level of [bids], a buy market order for less than
    that order's volume returns one deal, of the requested volume and at
    the order's price; what rests afterwards is that one order with its
    volume lowered by the requested volume, and [_short_volume] is lowered
    by as much. *)
Theorem partial_fill_of_single_order fuel owner_id v s p o rest :
  reachable s ->
  bids (fst s) = (p, [o]) :: rest -> resting rest = [] ->
  resting (asks (fst s)) = [] ->
  v < Order.volume o -> (2 <= fuel)%nat ->
  exists d s',
    submit_market_order fuel owner_id true v s
    = (Returned (Some [Deal.deal_id d], None), s')
    /\ made_deals (snd s') = made_deals (snd s) ++ [d]
    /\ Deal.volume d = v
    /\ Deal.price d = Order.price o
    /\ Deal.order_id_market d = Order.order_id o
    /\ resting (bids (fst s')) ++ resting (asks (fst s'))
       = [Order.sub_volume o v]
    /\ sd_get (Order.price o) (bids (fst s')) = Some [Order.sub_volume o v]
    /\ Order.volume (Order.sub_volume o v) = Order.volume o - v
    /\ _short_volume (fst s') = _short_volume (fst s) - v
    /\ _long_volume (fst s') = _long_volume (fst s).
Proof.
  intros Hr Hb Hrest Hasks Hv Hfuel.
  pose proof (reachable_ok _ Hr) as Hok. destruct s as [self w].
  cbn [fst snd] in *.
  assert (Hsv : _short_volume self = Order.volume o).
  { pose proof (ok_short _ Hok) as Hs. cbn [fst] in Hs. rewrite Hs.
    unfold get_total_short_volume. rewrite Hb. unfold sd_values. cbn [map snd zsum fold_right].
    fold (sd_values rest). fold (zsum (map queue_volume (sd_values rest))).
    rewrite (resting_nil_total rest Hrest). unfold queue_volume. cbn. lia. }
  assert (Hprice : Order.price o = p).
  { pose proof (ok_bids_levels _ Hok) as Hl. cbn [fst snd] in Hl.
    rewrite Hb in Hl. apply Forall_inv in Hl. destruct Hl as [Hq _].
    cbn [fst snd] in Hq. apply Forall_inv in Hq.
    destruct Hq as (_ & Hp & _). exact Hp. }
  destruct fuel as [|[|fuel]]; [lia|lia|].
  unfold submit_market_order. cbn [negb andb fst].
  replace (v >? _short_volume self) with false
    by (symmetry; rewrite Z.gtb_ltb; apply Z.ltb_ge; lia).
  cbn [walk_levels fill_level fst]. unfold get_max_bid_price.
  rewrite Hb. cbn [sd_first sd_get]. rewrite Z.eqb_refl.
  rewrite (fill_head_eq _ _ _ _ _ _ _ _ _ _ Hb). cbv zeta.
  replace (Z.min (Order.volume o) v) with v by lia.
  replace (v - v =? 0) with true by (symmetry; apply Z.eqb_eq; lia).
  replace (v <? Order.volume o) with true by (symmetry; apply Z.ltb_lt; lia).
  exists (Deal.mk v p (uuid_next w) (Order.order_id o) "" (S (uuid_next w))).
  eexists. split; [reflexivity|].
  cbn [fst snd made_deals bids asks set_bids set_short_volume
         _short_volume _long_volume Deal.volume Deal.price
         Deal.order_id_market Deal.deal_id].
  repeat split; auto.
  - rewrite Hasks, app_nil_r. unfold resting, sd_values in *.
    cbn [map snd List.concat]. rewrite Hrest. reflexivity.
  - rewrite Hprice. cbn [sd_get]. now rewrite Z.eqb_refl.
Qed.

Lemma partial_fill_of_single_order_witness :
  exists d s',
    submit_market_order 2 "u" true 4 (after 1 [SubmitLimit "a" false 101 10])
    = (Returned (Some [Deal.deal_id d], None), s')
    /\ Deal.volume d = 4 /\ Deal.price d = 101
    /\ resting (bids (fst s')) ++ resting (asks (fst s'))
       = [Order.mk "a" false 101 6 "" 0%nat]
    /\ _short_volume (fst s') = 6.
Proof.
  destruct (partial_fill_of_single_order 2 "u" 4
              (after 1 [SubmitLimit "a" false 101 10]) 101
              (Order.mk "a" false 101 10 "" 0%nat) [])
    as (d & s' & E & _ & Hv & Hp & _ & Hrest & _ & _ & Hs & _).
  - apply (run_reachable 1 [SubmitLimit "a" false 101 10] init 0 _ 10
             reachable_init).
    reflexivity.
  - reflexivity.
  - reflexivity.
  - reflexivity.
  - cbn. lia.
  - lia.
  - exists d, s'. repeat split; assumption.
Defined.

(** C8 as stated fails.  When the one resting order is a buy, the market
    order of the other side is a sell, which is refused: no deal, nothing
    changed.  And when the one resting order comes after a level that an
    earlier market order has emptied, the buy market order never returns. *)
Lemma partial_fill_not_in_every_book :
  (let s := after 1 [SubmitLimit "a" true 101 10] in
   resting (bids (fst s)) ++ resting (asks (fst s))
   = [Order.mk "a" true 101 10 "" 0%nat]
   /\ forall fuel,
        submit_market_order fuel "u" false 4 s
        = (Returned (None, Some short_unsupported_msg), s))
  /\ (let s := after 3 [SubmitLimit "a" false 10 5; SubmitMarket "u" true 5;
                        SubmitLimit "b" false 8 3] in
      resting (bids (fst s)) ++ resting (asks (fst s))
      = [Order.mk "b" false 8 3 "" 3%nat]
      /\ forall fuel, fst (submit_market_order fuel "v" true 1 s) = Spinning).
Proof.
  split; cbv zeta; (split; [reflexivity|]); intros fuel.
  - reflexivity.
  - apply (market_order_beyond_first_level fuel "v" 1 _ _ 10 []
             [(8, [Order.mk "b" false 8 3 "" 3%nat])]).
    + reflexivity.
    + constructor.
    + cbn. lia.
Qed.

(** ** The order of the deals *)

Lemma skipn_cons_firstn {A} (l : list A) : forall n x t,
  skipn n l = x :: t ->
  firstn (S n) l = firstn n l ++ [x] /\ skipn (S n) l = t.
Proof.
  induction l as [|a l IH]; intros n x t H.
  - destruct n; discriminate.
  - destruct n as [|n].
    + cbn in H. inversion H; subst. now split.
    + cbn [skipn] in H. destruct (IH n x t H) as [H1 H2].
      split; [|exact H2]. change (firstn (S (S n)) (a :: l))
        with (a :: firstn (S n) l). rewrite H1. reflexivity.
Qed.

Lemma sorted_firstn (l : list nat) : forall n,
  StronglySorted lt l -> StronglySorted lt (firstn n l).
Proof.
  induction l as [|a l IH]; intros n Hs.
  - destruct n; constructor.
  - destruct n as [|n]; [constructor|]. inversion Hs; subst.
    cbn. constructor; [now apply IH|].
    apply Forall_forall. intros x Hx.
    assert (Hin : In x l)
      by (rewrite <- (firstn_skipn n l); apply in_or_app; now left).
    rewrite Forall_forall in H2. now apply H2.
Qed.

Lemma walk_levels_follow fuel owner_id is_buy v ids0 self w p q rest r s' :
  bids self = (p, q) :: rest ->
  walk_levels fuel owner_id is_buy v ids0 (self, w) = (r, s') ->
  exists ids ds,
    deals_follow (made_deals w) ids0 p q ids (snd s') ds
    /\ match r with
       | Returned x => x = (Some ids, None)
       | _ => True
       end.
Proof.
  intros Hb H.
  pose proof (walk_levels_rule owner_id is_buy
    (fun _ ids x => exists ds,
         deals_follow (made_deals w) ids0 p q ids (snd x) ds
         /\ bids (fst x) = (p, skipn (List.length ds) q) :: rest)
    (fun ids x => exists ds,
         deals_follow (made_deals w) ids0 p q ids (snd x) ds)) as R.
  assert (Hbody : forall p1 v1 ids1 o q1 rest1 self1 w1,
    bids self1 = (p1, o :: q1) :: rest1 ->
    (exists ds,
        deals_follow (made_deals w) ids0 p q ids1 (snd (self1, w1)) ds
        /\ bids (fst (self1, w1)) = (p, skipn (List.length ds) q) :: rest) ->
    let '(v', ids', s1) :=
      fill_head owner_id is_buy p1 v1 ids1 o q1 (self1, w1) in
    if v' =? 0
    then exists ds, deals_follow (made_deals w) ids0 p q ids' (snd s1) ds
    else exists ds,
        deals_follow (made_deals w) ids0 p q ids' (snd s1) ds
        /\ bids (fst s1) = (p, skipn (List.length ds) q) :: rest).
  { intros p1 v1 ids1 o q1 rest1 self1 w1 Hb1 (ds & (Hm & Hi & Ho & Hp) & Hq).
    cbn [fst snd] in *. rewrite Hb1 in Hq. inversion Hq; subst p1 rest1.
    match goal with Hs : o :: q1 = skipn _ _ |- _ =>
      symmetry in Hs; destruct (skipn_cons_firstn _ _ _ _ Hs) as [Hf Hk] end.
    rewrite (fill_head_eq _ _ _ _ _ _ _ _ _ _ Hb1). cbv zeta.
    set (f := Z.min (Order.volume o) v1).
    set (d := Deal.mk f p (uuid_next w1) (Order.order_id o) ""
                (S (uuid_next w1))).
    assert (Hd : deals_follow (made_deals w) ids0 p q
                   (ids1 ++ [S (uuid_next w1)])
                   (mkWorld (S (S (uuid_next w1))) (made_deals w1 ++ [d]))
                   (ds ++ [d])).
    { unfold deals_follow. cbn [made_deals].
      rewrite Hm, Hi, !map_app, length_app, Nat.add_1_r, Hf, map_app, Ho.
      rewrite <- !app_assoc. repeat split.
      apply Forall_app. split; [exact Hp|]. now repeat constructor. }
    destruct (v1 - f =? 0) eqn:Z0; cbn [snd fst]; [eauto|].
    exists (ds ++ [d]). split; [exact Hd|].
    cbn [bids set_bids set_short_volume].
    rewrite length_app, Nat.add_1_r, Hk.
    apply Z.eqb_neq in Z0.
    replace (f <? Order.volume o) with false; [reflexivity|].
    symmetry. apply Z.ltb_ge. subst f. lia. }
  assert (H0 : exists ds,
             deals_follow (made_deals w) ids0 p q ids0 (snd (self, w)) ds
             /\ bids (fst (self, w)) = (p, skipn (List.length ds) q) :: rest).
  { exists []. unfold deals_follow. cbn. rewrite !app_nil_r. auto. }
  specialize (R Hbody fuel v ids0 (self, w) r s' H0 H).
  destruct r as [x|e|].
  - destruct R as (ids & -> & ds & Hd). eauto.
  - destruct R as (_ & _ & v' & ids & ds & Hd & _). eauto.
  - destruct R as (v' & ids & ds & Hd & _). eauto.
Qed.

(** A request that the first level of [bids] can meet is met there, in
    as many passes as orders are needed. *)
Lemma fill_level_returns owner_id is_buy p rest q :
  Forall (fun o => 0 < Order.volume o) q ->
  forall fuel v ids self w,
    bids self = (p, q) :: rest -> 0 < v <= queue_volume q ->
    (List.length q <= fuel)%nat ->
    exists ids' s',
      fill_level fuel owner_id is_buy p v ids (self, w) = (LevelReturn ids', s').
Proof.
  induction 1 as [|o q Ho Hq IH]; intros fuel v ids self w Hb Hv Hf.
  - unfold queue_volume in Hv. cbn in Hv. lia.
  - destruct fuel as [|fuel]; [cbn in Hf; lia|].
    cbn [fill_level fst]. rewrite Hb. cbn [sd_get]. rewrite Z.eqb_refl.
    rewrite (fill_head_eq _ _ _ _ _ _ _ _ _ _ Hb). cbv zeta.
    rewrite queue_volume_cons in Hv.
    destruct (v - Z.min (Order.volume o) v =? 0) eqn:Z0; [eauto|].
    apply Z.eqb_neq in Z0.
    assert (Hlt : Order.volume o < v) by lia.
    replace (Z.min (Order.volume o) v) with (Order.volume o) in * by lia.
    rewrite Z.ltb_irrefl.
    apply IH; [reflexivity|lia|cbn in Hf; lia].
Qed.

Lemma market_order_within_first_level fuel owner_id v self w p q rest :
  bids self = (p, q) :: rest ->
  Forall (fun o => 0 < Order.volume o) q ->
  0 < v <= queue_volume q -> v <= _short_volume self ->
  (List.length q < fuel)%nat ->
  exists ids s',
    submit_market_order fuel owner_id true v (self, w)
    = (Returned (Some ids, None), s').
Proof.
  intros Hb Hq Hv Hs Hf. unfold submit_market_order. cbn [negb andb fst].
  replace (v >? _short_volume self) with false
    by (symmetry; rewrite Z.gtb_ltb; apply Z.ltb_ge; lia).
  destruct fuel as [|fuel]; [lia|].
  cbn [walk_levels fst]. unfold get_max_bid_price. rewrite Hb. cbn [sd_first].
  destruct (fill_level_returns owner_id true p rest q Hq fuel v [] self w Hb Hv)
    as (ids & s' & E); [lia|].
  rewrite E. eauto.
Qed.

Lemma priority_of_one_level p (ds : list Deal.t) :
  Forall (fun d => Deal.price d = p) ds ->
  StronglySorted lt (map Deal.order_id_market ds) ->
  StronglySorted priority ds.
Proof.
  induction ds as [|d ds IH]; intros Hp Hs; [constructor|].
  inversion Hp as [|? ? Hd Hp']; inversion Hs as [|? ? Hs' Hall]; subst.
  constructor; [now apply IH|].
  rewrite Forall_forall in *. intros d' Hin. split.
  - rewrite (Hp' d' Hin). lia.
  - intros _. apply Hall. now apply in_map.
Qed.

(** C7, as amended.  The deals of one market order come out highest
    price first: the first is made at the highest price of [bids], no
    deal is made at a higher price than one made before it, and of two
    deals at one price the earlier is against the order that was
    submitted first (identifiers are drawn in turn).  Each deal is
    against an order that rested at the deal's price. *)
Theorem market_deals_in_priority_order fuel owner_id is_buy v s r s' :
  reachable s ->
  submit_market_order fuel owner_id is_buy v s = (r, s') ->
  exists ds,
    made_deals (snd s') = made_deals (snd s) ++ ds
    /\ StronglySorted priority ds
    /\ (forall d, In d ds ->
          exists q o,
            sd_get (Deal.price d) (bids (fst s)) = Some q
            /\ In o q /\ Order.order_id o = Deal.order_id_market d)
    /\ (forall d k, hd_error ds = Some d ->
          In k (map fst (bids (fst s))) -> k <= Deal.price d)
    /\ (forall ids, r = Returned (Some ids, None) ->
          ids = map Deal.deal_id ds).
Proof.
  intros Hr H. pose proof (reachable_ok _ Hr) as Hok.
  destruct s as [self w]. cbn [fst snd] in *.
  assert (Hnone : forall x : outcome market_reply,
             (forall ids, x <> Returned (Some ids, None)) ->
             exists ds : list Deal.t,
               made_deals w = made_deals w ++ ds
               /\ StronglySorted priority ds
               /\ (forall d, In d ds ->
                     exists q o,
                       sd_get (Deal.price d) (bids self) = Some q
                       /\ In o q /\ Order.order_id o = Deal.order_id_market d)
               /\ (forall d k, hd_error ds = Some d ->
                     In k (map fst (bids self)) -> k <= Deal.price d)
               /\ (forall ids, x = Returned (Some ids, None) ->
                     ids = map Deal.deal_id ds)).
  { intros x Hx. exists []. rewrite app_nil_r.
    split; [reflexivity|]. split; [constructor|].
    split; [intros d []|]. split; [discriminate|].
    intros ids Hids. exfalso. eapply Hx; eauto. }
  unfold submit_market_order in H. cbn [fst] in H.
  destruct (negb is_buy).
  { inversion H; subst. apply Hnone. discriminate. }
  destruct (is_buy && (v >? _short_volume self)).
  { inversion H; subst. apply Hnone. case_reject; discriminate. }
  cbn [andb] in H.
  destruct (bids self) as [|[p q] rest] eqn:Hb.
  { destruct fuel as [|fuel]; cbn [walk_levels fst] in H.
    - inversion H; subst. apply Hnone. discriminate.
    - unfold get_max_bid_price in H. rewrite Hb in H. cbn [sd_first] in H.
      inversion H; subst. apply Hnone. discriminate. }
  assert (Hhigh : forall k, In k (map fst ((p, q) :: rest)) -> k <= p).
  { pose proof (ok_bids_sorted _ Hok) as Hs. unfold sd_sorted in Hs.
    cbn [fst] in Hs. rewrite Hb in Hs. cbn [map fst] in Hs.
    inversion Hs as [|? ? _ Hall]; subst. rewrite Forall_forall in Hall.
    intros k Hk. cbn [map fst In] in Hk. destruct Hk as [<-|Hk]; [lia|].
    specialize (Hall k Hk). unfold bids_key in Hall. lia. }
  assert (Hsorted : forall n,
             StronglySorted lt (map Order.order_id (firstn n q))).
  { pose proof (ok_bids_levels _ Hok) as Hl. cbn [fst snd] in Hl.
    rewrite Hb in Hl. apply Forall_inv in Hl. destruct Hl as [_ Hs].
    cbn [snd] in Hs. intros n. rewrite <- firstn_map. now apply sorted_firstn. }
  destruct (walk_levels_follow _ _ _ _ _ _ _ _ _ _ _ _ Hb H)
    as (ids & ds & (Hm & Hi & Ho & Hp) & Hx).
  exists ds. split; [exact Hm|]. split; [|split; [|split]].
  - apply (priority_of_one_level p); [exact Hp|].
    rewrite Ho. apply Hsorted.
  - intros d Hd. rewrite Forall_forall in Hp. rewrite (Hp d Hd).
    exists q. cbn [sd_get]. rewrite Z.eqb_refl.
    assert (Hin : In (Deal.order_id_market d)
                    (map Order.order_id (firstn (List.length ds) q)))
      by (rewrite <- Ho; now apply in_map).
    apply in_map_iff in Hin. destruct Hin as (o & Hid & Hin).
    exists o. repeat split; auto.
    rewrite <- (firstn_skipn (List.length ds) q). apply in_or_app. now left.
  - intros d k Hd Hk. destruct ds as [|d0 ds0]; [discriminate|].
    inversion Hd; subst d0. apply Forall_inv in Hp. cbn beta in Hp.
    rewrite Hp. now apply Hhigh.
  - intros ids' Hret. subst r. inversion Hx; subst. reflexivity.
Qed.

Lemma market_deals_in_priority_order_witness :
  let s := after 1 [SubmitLimit "a" false 10 2; SubmitLimit "b" false 10 3;
                    SubmitLimit "c" false 9 1] in
  map (fun d => (Deal.price d, Deal.order_id_market d, Deal.volume d))
    (made_deals (snd (snd (submit_market_order 5 "u" true 4 s))))
  = [(10, 0%nat, 2); (10, 1%nat, 2)]
  /\ exists ds,
       made_deals (snd (snd (submit_market_order 5 "u" true 4 s)))
       = made_deals (snd s) ++ ds
       /\ StronglySorted priority ds.
Proof.
  cbv zeta. split; [vm_compute; reflexivity|].
  destruct (market_deals_in_priority_order 5 "u" true 4
              (after 1 [SubmitLimit "a" false 10 2; SubmitLimit "b" false 10 3;
                        SubmitLimit "c" false 9 1])
              (fst (submit_market_order 5 "u" true 4
                      (after 1 [SubmitLimit "a" false 10 2;
                                SubmitLimit "b" false 10 3;
                                SubmitLimit "c" false 9 1])))
              (snd (submit_market_order 5 "u" true 4
                      (after 1 [SubmitLimit "a" false 10 2;
                                SubmitLimit "b" false 10 3;
                                SubmitLimit "c" false 9 1]))))
    as (ds & Hm & Hs & _).
  - apply (run_reachable 1 [SubmitLimit "a" false 10 2;
                            SubmitLimit "b" false 10 3;
                            SubmitLimit "c" false 9 1] init 0 _ 6
             reachable_init).
    vm_compute. reflexivity.
  - apply surjective_pairing.
  - exists ds. split; [exact Hm|exact Hs].
Defined.

(** With a sell resting at 9 and one at 10, a buy market order for 2,
    which needs both levels, makes one deal, at 10, and leaves the order
    at 9 as it was, whatever the step budget. *)
Lemma spanning_buy_starts_at_highest_price :
  let s := after 1 [SubmitLimit "a" false 9 1; SubmitLimit "b" false 10 1] in
  forall n,
    map Deal.price
      (made_deals (snd (snd (submit_market_order (S (S n)) "u" true 2 s))))
    = [10]
    /\ resting (bids (fst (snd (submit_market_order (S (S n)) "u" true 2 s))))
       = [Order.mk "a" false 9 1 "" 0%nat].
Proof.
  cbv zeta. intros n.
  replace (after 1 [SubmitLimit "a" false 9 1; SubmitLimit "b" false 10 1])
    with (mkOrderbook
            [(10, [Order.mk "b" false 10 1 "" 1%nat]);
             (9, [Order.mk "a" false 9 1 "" 0%nat])]
            [] 0 0 2 0 [] [], mkWorld 2%nat [])
    by (vm_compute; reflexivity).
  set (s1 := (mkOrderbook [(10, []); (9, [Order.mk "a" false 9 1 "" 0%nat])]
                [] 0 0 1 0 [] [],
              mkWorld 4%nat [Deal.mk 1 10 2%nat 1%nat "" 3%nat])).
  assert (E : submit_market_order (S (S n)) "u" true 2
                (mkOrderbook
                   [(10, [Order.mk "b" false 10 1 "" 1%nat]);
                    (9, [Order.mk "a" false 9 1 "" 0%nat])]
                   [] 0 0 2 0 [] [], mkWorld 2%nat [])
              = (Spinning, s1)).
  { destruct n as [|n]; [vm_compute; reflexivity|].
    remember (S n) as m eqn:Hm.
    assert (F : fill_level (S m) "u" true 10 2 []
                  (mkOrderbook
                     [(10, [Order.mk "b" false 10 1 "" 1%nat]);
                      (9, [Order.mk "a" false 9 1 "" 0%nat])]
                     [] 0 0 2 0 [] [], mkWorld 2%nat [])
                = (LevelDone 1 [3%nat], s1)).
    { cbn [fill_level fst bids sd_get Z.eqb Pos.eqb].
      rewrite (fill_head_eq "u" true 10 2 []
                 (Order.mk "b" false 10 1 "" 1%nat) []
                 [(9, [Order.mk "a" false 9 1 "" 0%nat])]
                 (mkOrderbook
                    [(10, [Order.mk "b" false 10 1 "" 1%nat]);
                     (9, [Order.mk "a" false 9 1 "" 0%nat])]
                    [] 0 0 2 0 [] [])
                 (mkWorld 2%nat []) eq_refl).
      cbv zeta.
      replace (Z.min (Order.volume (Order.mk "b" false 10 1 "" 1%nat)) 2)
        with 1 by reflexivity.
      replace (2 - 1 =? 0) with false by reflexivity.
      replace (1 <? Order.volume (Order.mk "b" false 10 1 "" 1%nat))
        with false by reflexivity.
      subst m. cbn [fill_level fst bids set_bids set_short_volume sd_get
                      Z.eqb Pos.eqb].
      reflexivity. }
    unfold submit_market_order. cbn [negb andb fst _short_volume].
    replace (2 >? 2) with false by reflexivity.
    remember (S m) as m1 eqn:Hm1.
    cbn [walk_levels get_max_bid_price fst bids sd_first].
    rewrite F.
    apply (walk_levels_stuck m1 "u" true 1 [3%nat] _ _ 10
             [(9, [Order.mk "a" false 9 1 "" 0%nat])]).
    reflexivity. }
  rewrite E. split; reflexivity.
Qed.

(** C7 as stated fails.  With a sell resting at 9 and one at 10, a buy
    market order for 2, which needs both levels, makes its first deal at
    10, the highest price, while the order at 9, the lowest price, rests
    untouched. *)
Lemma market_buy_takes_highest_price_first :
  let s := after 1 [SubmitLimit "a" false 9 1; SubmitLimit "b" false 10 1] in
  let s' := snd (submit_market_order 10 "u" true 2 s) in
  resting (bids (fst s))
  = [Order.mk "b" false 10 1 "" 1%nat; Order.mk "a" false 9 1 "" 0%nat]
  /\ map Deal.price (made_deals (snd s')) = [10]
  /\ resting (bids (fst s')) = [Order.mk "a" false 9 1 "" 0%nat].
Proof.
  cbv zeta. split; [vm_compute; reflexivity|].
  exact (spanning_buy_starts_at_highest_price 8%nat).
Qed.

(** * More about the code *)

(** ** What a call leaves alone *)

Lemma submit_limit_order_idle owner_id is_buy price volume s r s' :
  submit_limit_order owner_id is_buy price volume s = (r, s') ->
  idle_fields (fst s') = idle_fields (fst s).
Proof.
  destruct (submit_limit_order_cases owner_id is_buy price volume s)
    as [(_ & m & _ & E)|(_ & E)]; rewrite E.
  - intros H; inversion H; subst. reflexivity.
  - destruct s as [self w]. rewrite rest_limit_order_eq.
    intros H; inversion H; subst. destruct is_buy; reflexivity.
Qed.

Lemma submit_market_order_idle fuel owner_id is_buy v s r s' :
  submit_market_order fuel owner_id is_buy v s = (r, s') ->
  idle_fields (fst s') = idle_fields (fst s).
Proof.
  unfold submit_market_order.
  destruct (negb is_buy); [intros H; inversion H; subst; reflexivity|].
  destruct (is_buy && (v >? _short_volume (fst s)));
    [intros H; inversion H; subst; reflexivity|].
  cbn [andb]. intros H.
  pose proof (walk_levels_rule owner_id is_buy
    (fun _ _ x => idle_fields (fst x) = idle_fields (fst s))
    (fun _ x => idle_fields (fst x) = idle_fields (fst s))) as R.
  assert (Hbody : forall p v ids o q rest self w,
    bids self = (p, o :: q) :: rest ->
    idle_fields (fst (self, w)) = idle_fields (fst s) ->
    let '(v', ids', s1) := fill_head owner_id is_buy p v ids o q (self, w) in
    if v' =? 0 then idle_fields (fst s1) = idle_fields (fst s)
    else idle_fields (fst s1) = idle_fields (fst s)).
  { intros p v0 ids o q rest self w Hb HI.
    rewrite (fill_head_eq _ _ _ _ _ _ _ _ _ _ Hb). cbv zeta.
    destruct (v0 - Z.min (Order.volume o) v0 =? 0); exact HI. }
  specialize (R Hbody fuel v [] s r s' eq_refl H).
  destruct r as [x|e|].
  - now destruct R as (_ & _ & ?).
  - now destruct R as (_ & _ & _ & _ & ?).
  - now destruct R as (_ & _ & ?).
Qed.

(** X1.  The two cached order counts and the two logs are written by
    [__init__] only: after any calls [_long_num_ords] and
    [_short_num_ords] are still 0 and [_deals] and [_orders] still empty,
    however many orders rest and deals were made. *)
Theorem caches_are_never_maintained s :
  reachable s ->
  _long_num_ords (fst s) = 0 /\ _short_num_ords (fst s) = 0
  /\ _deals (fst s) = [] /\ _orders (fst s) = [].
Proof.
  intros Hr.
  assert (H : idle_fields (fst s) = (0, 0, [], [])).
  { induction Hr as [|fuel c s r s' _ IH E _]; [reflexivity|].
    rewrite <- IH. destruct c as [o b p v|o b v]; simpl in E.
    - destruct (submit_limit_order o b p v s) as [r0 s0] eqn:E0.
      inversion E; subst. eapply submit_limit_order_idle; eauto.
    - destruct (submit_market_order fuel o b v s) as [r0 s0] eqn:E0.
      inversion E; subst. eapply submit_market_order_idle; eauto. }
  unfold idle_fields in H. inversion H. auto.
Qed.

Lemma caches_are_never_maintained_witness :
  get_long_num_ords (fst (after 5 sample_calls)) = 1
  /\ get_short_num_ords (fst (after 5 sample_calls)) = 1
  /\ List.length (made_deals (snd (after 5 sample_calls))) = 1%nat
  /\ _long_num_ords (fst (after 5 sample_calls)) = 0
  /\ _short_num_ords (fst (after 5 sample_calls)) = 0
  /\ _deals (fst (after 5 sample_calls)) = []
  /\ _orders (fst (after 5 sample_calls)) = [].
Proof.
  split; [vm_compute; reflexivity|]. split; [vm_compute; reflexivity|].
  split; [vm_compute; reflexivity|].
  apply (caches_are_never_maintained (after 5 sample_calls)).
  apply (run_reachable 5 sample_calls init 0 _ 12 reachable_init).
  vm_compute. reflexivity.
Defined.

Lemma sd_set_keeps_keys {V} key k (v : V) d x :
  In x (map fst d) -> In x (map fst (sd_set key k v d)).
Proof.
  induction d as [|[k' v'] tl IH]; simpl; [intros []|].
  destruct (k =? k') eqn:E; simpl.
  - apply Z.eqb_eq in E. subst. auto.
  - destruct (key k <? key k'); simpl; intros [H|H]; auto.
Qed.

Lemma sd_set_Forall {V} key k (v : V) d (P : Z * V -> Prop) :
  Forall P d -> P (k, v) -> Forall P (sd_set key k v d).
Proof.
  intros Hd Hv. induction Hd as [|[k' v'] tl Hx Htl IH]; simpl.
  - now repeat constructor.
  - destruct (k =? k'); [now constructor|].
    destruct (key k <? key k'); repeat constructor; auto.
Qed.

(** X2.  No call ever takes a price level out of a store: a key of
    [bids] or of [asks] before a call is still a key after it, whatever
    the call and however it ends; a market order leaves the keys of
    [bids] exactly as they were, even when it emptied a level. *)
Theorem price_levels_are_never_removed fuel c s r s' :
  exec fuel c s = (r, s') ->
  (forall k, In k (map fst (bids (fst s))) -> In k (map fst (bids (fst s'))))
  /\ (forall k, In k (map fst (asks (fst s))) -> In k (map fst (asks (fst s'))))
  /\ (forall owner_id is_buy volume,
         c = SubmitMarket owner_id is_buy volume ->
         map fst (bids (fst s')) = map fst (bids (fst s))
         /\ asks (fst s') = asks (fst s)).
Proof.
  destruct c as [o b p v|o b v]; simpl.
  - destruct (submit_limit_order_cases o b p v s) as [(_ & m & _ & E)|(_ & E)];
      rewrite E.
    + intros H; inversion H; subst. repeat split; auto; discriminate.
    + destruct s as [self w]. rewrite rest_limit_order_eq.
      intros H; inversion H; subst; clear H. cbn [fst].
      split; [|split; [|discriminate]]; intros k Hk; destruct b;
        cbn [bids asks set_bids set_asks set_long_volume set_short_volume];
        auto; now apply sd_set_keeps_keys.
  - destruct (submit_market_order fuel o b v s) as [r0 s0] eqn:E.
    intros H; inversion H; subst.
    destruct (submit_market_order_frame _ _ _ _ _ _ _ E) as (Ha & _ & Hk & _).
    rewrite Ha, Hk. repeat split; auto.
Qed.

Lemma price_levels_are_never_removed_witness :
  map fst (bids (fst (snd (exec 9 (SubmitMarket "v" true 6)
                             (after 5 sample_calls))))) = [101]
  /\ resting (bids (fst (snd (exec 9 (SubmitMarket "v" true 6)
                                (after 5 sample_calls))))) = []
  /\ In 101 (map fst (bids (fst (snd (exec 9 (SubmitMarket "v" true 6)
                                        (after 5 sample_calls)))))).
Proof.
  split; [vm_compute; reflexivity|]. split; [vm_compute; reflexivity|].
  apply (proj1 (price_levels_are_never_removed 9 (SubmitMarket "v" true 6)
                  (after 5 sample_calls)
                  (fst (exec 9 (SubmitMarket "v" true 6) (after 5 sample_calls)))
                  (snd (exec 9 (SubmitMarket "v" true 6) (after 5 sample_calls)))
                  (surjective_pairing _))).
  vm_compute. auto.
Defined.

(** X3.  Nothing ever fills or removes an order resting in [asks]: over
    any call the queue of each level of [asks] keeps every order it had,
    unchanged and in place, and can only have one order more at its
    tail. *)
Theorem asks_orders_are_never_filled fuel c s r s' k q :
  exec fuel c s = (r, s') ->
  sd_get k (asks (fst s)) = Some q ->
  sd_get k (asks (fst s')) = Some q
  \/ exists o, sd_get k (asks (fst s')) = Some (q ++ [o])
               /\ Order.is_buy o = true /\ Order.price o = k.
Proof.
  destruct c as [o b p v|o b v]; simpl.
  - destruct (submit_limit_order_cases o b p v s) as [(_ & m & _ & E)|(_ & E)];
      rewrite E.
    + intros H; inversion H; subst. auto.
    + destruct s as [self w]. rewrite rest_limit_order_eq.
      intros H; inversion H; subst; clear H. cbn [fst]. intros Hq.
      destruct b; cbn [asks set_asks set_bids set_long_volume set_short_volume];
        [|auto].
      destruct (Z.eq_dec k p) as [->|Hne].
      * right. rewrite sd_get_set_same, Hq. eexists. split; [reflexivity|].
        split; reflexivity.
      * left. now rewrite sd_get_set_other.
  - destruct (submit_market_order fuel o b v s) as [r0 s0] eqn:E.
    intros H; inversion H; subst.
    destruct (submit_market_order_frame _ _ _ _ _ _ _ E) as (Ha & _).
    rewrite Ha. auto.
Qed.

Lemma asks_orders_are_never_filled_witness :
  sd_get 105 (asks (fst (snd (exec 9 (SubmitLimit "d" true 105 1)
                                (after 5 sample_calls)))))
  = Some [Order.mk "c" true 105 2 "" 1%nat]
  \/ exists o,
       sd_get 105 (asks (fst (snd (exec 9 (SubmitLimit "d" true 105 1)
                                     (after 5 sample_calls)))))
       = Some ([Order.mk "c" true 105 2 "" 1%nat] ++ [o])
       /\ Order.is_buy o = true /\ Order.price o = 105.
Proof.
  apply (asks_orders_are_never_filled 9 (SubmitLimit "d" true 105 1)
           (after 5 sample_calls)
           (fst (exec 9 (SubmitLimit "d" true 105 1) (after 5 sample_calls)))
           (snd (exec 9 (SubmitLimit "d" true 105 1) (after 5 sample_calls)))
           105 [Order.mk "c" true 105 2 "" 1%nat]).
  - apply surjective_pairing.
  - vm_compute. reflexivity.
Defined.

(** ** The shape of a reachable book *)

Lemma sorted_keys_nodup {V} key (d : list (Z * V)) :
  sd_sorted key d -> NoDup (map fst d).
Proof.
  unfold sd_sorted. induction 1 as [|k l _ IH Hall]; constructor; [|exact IH].
  intros Hin. rewrite Forall_forall in Hall. specialize (Hall k Hin). lia.
Qed.

Lemma book_ok_best_prices s :
  book_ok s ->
  NoDup (map fst (bids (fst s))) /\ NoDup (map fst (asks (fst s)))
  /\ (forall p k, get_max_bid_price (fst s) = inr p ->
        In k (map fst (bids (fst s))) -> k <= p)
  /\ (forall a k, get_min_ask_price (fst s) = inr a ->
        In k (map fst (asks (fst s))) -> a <= k).
Proof.
  intros Hok.
  pose proof (ok_bids_sorted _ Hok) as Hb.
  pose proof (ok_asks_sorted _ Hok) as Ha.
  split; [eapply sorted_keys_nodup; eauto|].
  split; [eapply sorted_keys_nodup; eauto|]. split.
  - intros p k Hp Hk.
    pose proof (sd_first_least bids_key _ p k Hb Hp Hk) as H.
    unfold bids_key in H. lia.
  - intros a k Hp Hk.
    exact (sd_first_least asks_key _ a k Ha Hp Hk).
Qed.

(** X4.  On a reachable book each store holds a price at most once,
    [get_max_bid_price] is the highest price of [bids] and
    [get_min_ask_price] the lowest price of [asks]. *)
Theorem best_prices_are_extremal s :
  reachable s ->
  NoDup (map fst (bids (fst s))) /\ NoDup (map fst (asks (fst s)))
  /\ (forall p k, get_max_bid_price (fst s) = inr p ->
        In k (map fst (bids (fst s))) -> k <= p)
  /\ (forall a k, get_min_ask_price (fst s) = inr a ->
        In k (map fst (asks (fst s))) -> a <= k).
Proof.
  intros Hr. apply book_ok_best_prices. now apply reachable_ok.
Qed.

Lemma best_prices_are_extremal_witness :
  map fst (bids (fst (after 1 [SubmitLimit "a" false 3 1;
                               SubmitLimit "b" false 8 1;
                               SubmitLimit "c" false 5 1]))) = [8; 5; 3]
  /\ forall k,
       In k (map fst (bids (fst (after 1 [SubmitLimit "a" false 3 1;
                                          SubmitLimit "b" false 8 1;
                                          SubmitLimit "c" false 5 1])))) ->
       k <= 8.
Proof.
  split; [vm_compute; reflexivity|]. intros k.
  refine (proj1 (proj2 (proj2 (best_prices_are_extremal
            (after 1 [SubmitLimit "a" false 3 1; SubmitLimit "b" false 8 1;
                      SubmitLimit "c" false 5 1]) _))) 8 k _).
  - apply (run_reachable 1 [SubmitLimit "a" false 3 1;
                            SubmitLimit "b" false 8 1;
                            SubmitLimit "c" false 5 1] init 0 _ 3
             reachable_init).
    vm_compute. reflexivity.
  - vm_compute. reflexivity.
Defined.

(** X5.  On a reachable book every price of [asks] is above every price
    of [bids], not only the two first keys that [validate] compares. *)
Theorem every_ask_is_above_every_bid s a b :
  reachable s ->
  In a (map fst (asks (fst s))) -> In b (map fst (bids (fst s))) -> b < a.
Proof.
  intros Hr Ha Hb. pose proof (reachable_ok _ Hr) as Hok.
  destruct (book_ok_best_prices s Hok) as (_ & _ & Hmax & Hmin).
  pose proof (ok_cross _ Hok) as Hc.
  unfold get_max_bid_price, get_min_ask_price in *.
  destruct (asks (fst s)) as [|[a0 qa] ta]; [destruct Ha|].
  destruct (bids (fst s)) as [|[b0 qb] tb]; [destruct Hb|].
  specialize (Hc a0 b0 eq_refl eq_refl).
  specialize (Hmax b0 b eq_refl Hb). specialize (Hmin a0 a eq_refl Ha). lia.
Qed.

Lemma every_ask_is_above_every_bid_witness : 101 < 105.
Proof.
  apply (every_ask_is_above_every_bid (after 5 sample_calls) 105 101).
  - apply (run_reachable 5 sample_calls init 0 _ 12 reachable_init).
    vm_compute. reflexivity.
  - vm_compute. auto.
  - vm_compute. auto.
Defined.

Lemma book_ok_sides s :
  book_ok s ->
  (forall k q o, In (k, q) (bids (fst s)) -> In o q ->
     Order.is_buy o = false /\ Order.price o = k)
  /\ (forall k q o, In (k, q) (asks (fst s)) -> In o q ->
        Order.is_buy o = true /\ Order.price o = k)
  /\ (forall k q, In (k, q) (bids (fst s)) \/ In (k, q) (asks (fst s)) ->
        NoDup (map Order.order_id q)).
Proof.
  intros Hok.
  pose proof (ok_bids_levels _ Hok) as Hb.
  pose proof (ok_asks_levels _ Hok) as Ha.
  rewrite Forall_forall in Hb, Ha.
  assert (Hnd : forall l : list nat, StronglySorted lt l -> NoDup l).
  { induction 1 as [|x l _ IH Hall]; constructor; [|exact IH].
    intros Hin. rewrite Forall_forall in Hall. specialize (Hall x Hin). lia. }
  split; [|split].
  - intros k q o Hin Ho. destruct (Hb _ Hin) as [Hall _].
    rewrite Forall_forall in Hall. destruct (Hall o Ho) as (? & ? & _). auto.
  - intros k q o Hin Ho. destruct (Ha _ Hin) as [Hall _].
    rewrite Forall_forall in Hall. destruct (Hall o Ho) as (? & ? & _). auto.
  - intros k q [Hin|Hin]; apply Hnd.
    + now destruct (Hb _ Hin).
    + now destruct (Ha _ Hin).
Qed.

(** X6.  On a reachable book an order is queued under its own price, a
    sell ([is_buy] false) in [bids] and a buy in [asks], and no order
    resting in one level has the identifier of another. *)
Theorem orders_rest_under_their_price s :
  reachable s ->
  (forall k q o, In (k, q) (bids (fst s)) -> In o q ->
     Order.is_buy o = false /\ Order.price o = k)
  /\ (forall k q o, In (k, q) (asks (fst s)) -> In o q ->
        Order.is_buy o = true /\ Order.price o = k)
  /\ (forall k q, In (k, q) (bids (fst s)) \/ In (k, q) (asks (fst s)) ->
        NoDup (map Order.order_id q)).
Proof.
  intros Hr. apply book_ok_sides. now apply reachable_ok.
Qed.

Lemma orders_rest_under_their_price_witness :
  Order.is_buy (Order.mk "c" true 105 2 "" 1%nat) = true
  /\ Order.price (Order.mk "c" true 105 2 "" 1%nat) = 105.
Proof.
  refine (proj1 (proj2 (orders_rest_under_their_price (after 5 sample_calls) _))
            105 [Order.mk "c" true 105 2 "" 1%nat] _ _ _).
  - apply (run_reachable 5 sample_calls init 0 _ 12 reachable_init).
    vm_compute. reflexivity.
  - vm_compute. auto.
  - left. reflexivity.
Defined.

Lemma exec_asks_nonempty fuel c s r s' :
  Forall (fun item : Z * deque => snd item <> []) (asks (fst s)) ->
  exec fuel c s = (r, s') ->
  Forall (fun item : Z * deque => snd item <> []) (asks (fst s')).
Proof.
  intros Hne. destruct c as [o b p v|o b v]; simpl.
  - destruct (submit_limit_order_cases o b p v s) as [(_ & m & _ & E)|(_ & E)];
      rewrite E.
    + intros H; inversion H; subst. exact Hne.
    + destruct s as [self w]. rewrite rest_limit_order_eq.
      intros H; inversion H; subst; clear H. cbn [fst] in *.
      destruct b; cbn [asks set_asks set_bids set_long_volume set_short_volume];
        [|exact Hne].
      apply sd_set_Forall; [exact Hne|]. cbn [snd].
      destruct (sd_get p (asks self)) as [q|]; [|discriminate].
      intros Hq. apply app_eq_nil in Hq. destruct Hq as [_ Hq]. discriminate.
  - destruct (submit_market_order fuel o b v s) as [r0 s0] eqn:E.
    intros H; inversion H; subst.
    destruct (submit_market_order_frame _ _ _ _ _ _ _ E) as (Ha & _).
    now rewrite Ha.
Qed.

(** X7.  Unlike [bids], [asks] never holds an empty level: on a reachable
    book with a level in [asks], [get_min_ask_price] is the price of a
    buy order that rests at the head of that level. *)
Theorem best_ask_holds_an_order s a :
  reachable s ->
  get_min_ask_price (fst s) = inr a ->
  exists o q,
    sd_get a (asks (fst s)) = Some (o :: q)
    /\ Order.is_buy o = true /\ Order.price o = a.
Proof.
  intros Hr Ha.
  assert (Hne : Forall (fun item : Z * deque => snd item <> []) (asks (fst s))).
  { clear Ha. induction Hr as [|fuel c s r s' _ IH E _]; [constructor|].
    eapply exec_asks_nonempty; eauto. }
  destruct (book_ok_sides s (reachable_ok _ Hr)) as (_ & Hside & _).
  unfold get_min_ask_price in Ha.
  destruct (asks (fst s)) as [|[k q] tl] eqn:E; [discriminate|].
  cbn in Ha. inversion Ha; subst k. apply Forall_inv in Hne. cbn [snd] in Hne.
  destruct q as [|o q]; [contradiction|].
  exists o, q. cbn [sd_get]. rewrite Z.eqb_refl. split; [reflexivity|].
  apply (Hside a (o :: q) o); now left.
Qed.

Lemma best_ask_holds_an_order_witness :
  exists o q,
    sd_get 105 (asks (fst (after 5 sample_calls))) = Some (o :: q)
    /\ Order.is_buy o = true /\ Order.price o = 105.
Proof.
  apply (best_ask_holds_an_order (after 5 sample_calls) 105).
  - apply (run_reachable 5 sample_calls init 0 _ 12 reachable_init).
    vm_compute. reflexivity.
  - vm_compute. reflexivity.
Defined.

(** ** What a market order does *)

(** X8.  A market order that returns deal identifiers was a buy for no
    more than [_short_volume]; it made one deal for each identifier, and
    at least one; the volumes of these deals add up to the volume asked
    for, and [_short_volume] went down by exactly that volume. *)
Theorem market_order_fills_exactly fuel owner_id is_buy v s ids x s' :
  submit_market_order fuel owner_id is_buy v s = (Returned (Some ids, x), s') ->
  x = None /\ is_buy = true /\ v <= _short_volume (fst s)
  /\ ids <> []
  /\ List.length (made_deals (snd s'))
     = (List.length (made_deals (snd s)) + List.length ids)%nat
  /\ deals_volume (made_deals (snd s'))
     = deals_volume (made_deals (snd s)) + v
  /\ _short_volume (fst s') = _short_volume (fst s) - v.
Proof.
  intros H. pose proof (submit_market_order_frame _ _ _ _ _ _ _ H)
    as (_ & _ & _ & Hbal).
  unfold submit_market_order in H.
  destruct is_buy; cbn [negb andb] in H; [|discriminate].
  destruct (v >? _short_volume (fst s)) eqn:G;
    [case_reject; discriminate|].
  rewrite Z.gtb_ltb in G. apply Z.ltb_ge in G.
  pose proof (walk_levels_rule owner_id true
    (fun v1 ids1 x1 =>
       v1 + deals_volume (made_deals (snd x1))
       = v + deals_volume (made_deals (snd s))
       /\ List.length (made_deals (snd x1))
          = (List.length (made_deals (snd s)) + List.length ids1)%nat)
    (fun ids1 x1 =>
       deals_volume (made_deals (snd x1))
       = v + deals_volume (made_deals (snd s))
       /\ List.length (made_deals (snd x1))
          = (List.length (made_deals (snd s)) + List.length ids1)%nat
       /\ ids1 <> [])) as R.
  assert (Hbody : forall p v1 ids1 o q rest self w,
    bids self = (p, o :: q) :: rest ->
    v1 + deals_volume (made_deals (snd (self, w)))
    = v + deals_volume (made_deals (snd s))
    /\ List.length (made_deals (snd (self, w)))
       = (List.length (made_deals (snd s)) + List.length ids1)%nat ->
    let '(v', ids', s1) := fill_head owner_id true p v1 ids1 o q (self, w) in
    if v' =? 0
    then deals_volume (made_deals (snd s1))
         = v + deals_volume (made_deals (snd s))
         /\ List.length (made_deals (snd s1))
            = (List.length (made_deals (snd s)) + List.length ids')%nat
         /\ ids' <> []
    else v' + deals_volume (made_deals (snd s1))
         = v + deals_volume (made_deals (snd s))
         /\ List.length (made_deals (snd s1))
            = (List.length (made_deals (snd s)) + List.length ids')%nat).
  { intros p v1 ids1 o q rest self w Hb [Hv Hl]. cbn [snd] in *.
    rewrite (fill_head_eq _ _ _ _ _ _ _ _ _ _ Hb). cbv zeta.
    cbn [snd made_deals]. rewrite deals_volume_snoc, !length_app.
    cbn [Deal.volume List.length].
    destruct (v1 - Z.min (Order.volume o) v1 =? 0) eqn:Z0.
    - apply Z.eqb_eq in Z0. repeat split; try lia.
      intros Hnil. apply app_eq_nil in Hnil. destruct Hnil; discriminate.
    - split; lia. }
  specialize (R Hbody fuel v [] s _ s'
                (conj eq_refl (eq_sym (Nat.add_0_r _))) H).
  destruct R as (ids' & Hx & Hd & Hl & Hne). inversion Hx; subst.
  repeat split; auto; lia.
Qed.

Lemma market_order_fills_exactly_witness :
  let s := after 1 [SubmitLimit "a" false 10 2; SubmitLimit "b" false 10 3;
                    SubmitLimit "c" false 9 1] in
  map Deal.volume
    (made_deals (snd (snd (submit_market_order 5 "u" true 4 s)))) = [2; 2]
  /\ deals_volume (made_deals (snd (snd (submit_market_order 5 "u" true 4 s))))
     = deals_volume (made_deals (snd s)) + 4
  /\ _short_volume (fst (snd (submit_market_order 5 "u" true 4 s)))
     = _short_volume (fst s) - 4.
Proof.
  cbv zeta. split; [vm_compute; reflexivity|].
  refine (proj2 (proj2 (proj2 (proj2 (proj2
            (market_order_fills_exactly 5 "u" true 4
               (after 1 [SubmitLimit "a" false 10 2; SubmitLimit "b" false 10 3;
                         SubmitLimit "c" false 9 1])
               [4%nat; 6%nat] None
               (snd (submit_market_order 5 "u" true 4
                       (after 1 [SubmitLimit "a" false 10 2;
                                 SubmitLimit "b" false 10 3;
                                 SubmitLimit "c" false 9 1]))) _)))))).
  vm_compute. reflexivity.
Defined.

Lemma positive_total_nonneg (d : list (Z * deque)) :
  Forall (fun o => 0 < Order.volume o) (resting d) ->
  0 <= zsum (map queue_volume (sd_values d)).
Proof.
  unfold resting, sd_values. induction d as [|[k q] tl IH]; simpl; [lia|].
  intros H. apply Forall_app in H. destruct H as [Hq Htl].
  pose proof (queue_volume_nonneg q Hq). specialize (IH Htl). lia.
Qed.

Lemma positive_first_level self p q rest :
  bids self = (p, q) :: rest -> positive_bids self ->
  Forall (fun o => 0 < Order.volume o) q
  /\ queue_volume q <= get_total_short_volume self.
Proof.
  unfold positive_bids, get_total_short_volume, resting, sd_values.
  intros -> H. cbn [map snd List.concat] in *.
  apply Forall_app in H. destruct H as [Hq Hrest]. split; [exact Hq|].
  pose proof (positive_total_nonneg rest Hrest) as Hn.
  unfold sd_values in Hn. cbn [zsum fold_right]. unfold zsum in Hn. lia.
Qed.

(** X9.  On a reachable book whose sell orders all have a positive
    volume, a buy market order for a positive volume that the first level
    of [bids] can meet returns its deals, in no more passes of the inner
    loop than that level has orders. *)
Theorem market_order_returns_within_first_level
    fuel owner_id v s p q rest :
  reachable s -> positive_bids (fst s) ->
  bids (fst s) = (p, q) :: rest ->
  0 < v <= queue_volume q -> (List.length q < fuel)%nat ->
  exists ids s',
    submit_market_order fuel owner_id true v s
    = (Returned (Some ids, None), s').
Proof.
  intros Hr Hp Hb Hv Hf. pose proof (reachable_ok _ Hr) as Hok.
  destruct s as [self w]. cbn [fst] in *.
  destruct (positive_first_level self p q rest Hb Hp) as [Hq Hle].
  apply (market_order_within_first_level fuel owner_id v self w p q rest);
    auto.
  pose proof (ok_short _ Hok) as Hs. cbn [fst] in Hs. lia.
Qed.

Lemma market_order_returns_within_first_level_witness :
  exists ids s',
    submit_market_order 3 "u" true 4
      (after 1 [SubmitLimit "a" false 10 2; SubmitLimit "b" false 10 3;
                SubmitLimit "c" false 9 1])
    = (Returned (Some ids, None), s').
Proof.
  apply (market_order_returns_within_first_level 3 "u" 4
           (after 1 [SubmitLimit "a" false 10 2; SubmitLimit "b" false 10 3;
                     SubmitLimit "c" false 9 1])
           10 [Order.mk "a" false 10 2 "" 0%nat;
               Order.mk "b" false 10 3 "" 1%nat]
           [(9, [Order.mk "c" false 9 1 "" 2%nat])]).
  - apply (run_reachable 1 [SubmitLimit "a" false 10 2;
                            SubmitLimit "b" false 10 3;
                            SubmitLimit "c" false 9 1] init 0 _ 6
             reachable_init).
    vm_compute. reflexivity.
  - vm_compute. repeat constructor.
  - vm_compute. reflexivity.
  - vm_compute. split; [reflexivity|discriminate].
  - vm_compute. lia.
Defined.

(** X10.  On a reachable book whose sell orders all have a positive
    volume, a buy market order for more than the first level of [bids]
    holds, though for no more than rests in all, never returns: it
    empties that level and then reads it for ever. *)
Theorem market_order_never_returns_beyond_first_level
    owner_id v s p q rest :
  reachable s -> positive_bids (fst s) ->
  bids (fst s) = (p, q) :: rest ->
  queue_volume q < v <= shortVolume s ->
  forall fuel, fst (submit_market_order fuel owner_id true v s) = Spinning.
Proof.
  intros Hr Hp Hb Hv fuel. pose proof (reachable_ok _ Hr) as Hok.
  destruct s as [self w]. cbn [fst] in *.
  destruct (positive_first_level self p q rest Hb Hp) as [Hq _].
  apply (market_order_beyond_first_level fuel owner_id v self w p q rest);
    auto.
  pose proof (ok_short _ Hok) as Hs. cbn [fst] in Hs.
  unfold shortVolume in Hv. cbn [fst] in Hv. lia.
Qed.

Lemma market_order_never_returns_beyond_first_level_witness :
  fst (submit_market_order 1000 "u" true 6
         (after 1 [SubmitLimit "a" false 10 2; SubmitLimit "b" false 10 3;
                   SubmitLimit "c" false 9 1]))
  = Spinning.
Proof.
  apply (market_order_never_returns_beyond_first_level "u" 6
           (after 1 [SubmitLimit "a" false 10 2; SubmitLimit "b" false 10 3;
                     SubmitLimit "c" false 9 1])
           10 [Order.mk "a" false 10 2 "" 0%nat;
               Order.mk "b" false 10 3 "" 1%nat]
           [(9, [Order.mk "c" false 9 1 "" 2%nat])]).
  - apply (run_reachable 1 [SubmitLimit "a" false 10 2;
                            SubmitLimit "b" false 10 3;
                            SubmitLimit "c" false 9 1] init 0 _ 6
             reachable_init).
    vm_compute. reflexivity.
  - vm_compute. repeat constructor.
  - vm_compute. reflexivity.
  - vm_compute. split; [reflexivity|discriminate].
Defined.

Lemma walk_levels_empty fuel owner_id is_buy v ids s :
  bids (fst s) = [] ->
  walk_levels (S fuel) owner_id is_buy v ids s = (Raised StopIteration, s).
Proof.
  intros Hb. cbn [walk_levels]. unfold get_max_bid_price. now rewrite Hb.
Qed.

Lemma printable_zero : printable 0 = true.
Proof. vm_compute. reflexivity. Qed.

(** X11.  A market order raises in two cases only, and changes nothing
    when it does: [StopIteration] out of [get_max_bid_price] on an empty
    [bids], for a buy that passed the volume guard; [ValueError] out of
    the f-string of the volume guard, when the volume or [_short_volume]
    does not print.  [self.bids[price_level]] never raises [KeyError].
    On a reachable book with an empty [bids] a buy for volume 0 or less
    raises [StopIteration], and a buy for a positive volume that prints
    is rejected with the two volumes in the reason. *)
Theorem market_order_exceptions :
  (forall fuel owner_id is_buy v s e s',
      submit_market_order fuel owner_id is_buy v s = (Raised e, s') ->
      s' = s
      /\ (e = StopIteration /\ bids (fst s) = []
          /\ v <= _short_volume (fst s)
          \/ e = ValueError /\ v > _short_volume (fst s)
             /\ (printable v = false
                 \/ printable (_short_volume (fst s)) = false)))
  /\ (forall fuel owner_id v s,
         reachable s -> bids (fst s) = [] -> v <= 0 ->
         submit_market_order (S fuel) owner_id true v s
         = (Raised StopIteration, s))
  /\ (forall fuel owner_id v s,
         reachable s -> bids (fst s) = [] -> 0 < v -> printable v = true ->
         submit_market_order fuel owner_id true v s
         = (Returned (None, Some ("volume=" ++ decimal v
                                  ++ ">self._short_volume=0!")%string), s)).
Proof.
  assert (Hzero : forall s, reachable s -> bids (fst s) = [] ->
                            _short_volume (fst s) = 0).
  { intros s Hr Hb. rewrite (ok_short _ (reachable_ok _ Hr)).
    unfold get_total_short_volume. now rewrite Hb. }
  split; [|split].
  - intros fuel o b v s e s' H.
    pose proof (submit_market_order_frame _ _ _ _ _ _ _ H) as (_ & _ & Hk & _).
    unfold submit_market_order in H.
    destruct b; cbn [negb andb] in H; [|discriminate].
    destruct (v >? _short_volume (fst s)) eqn:G.
    + rewrite Z.gtb_ltb in G. apply Z.ltb_lt in G.
      unfold exceeds_short_msg in H.
      destruct (fstring2_cases "volume=" v ">self._short_volume="
                  (_short_volume (fst s)) "!")
        as [(_ & _ & E)|(Hxy & E)]; rewrite E in H; cbn [reject] in H;
        [discriminate|].
      inversion H; subst. split; [reflexivity|]. right.
      repeat split; auto. lia.
    + rewrite Z.gtb_ltb in G. apply Z.ltb_ge in G. cbn [negb andb] in H.
      pose proof (walk_levels_rule o true (fun _ _ _ => True)
                    (fun _ _ => True)) as R.
      assert (Hbody : forall p v1 ids1 ord q rest self w,
        bids self = (p, ord :: q) :: rest -> True ->
        let '(v', ids', s1) := fill_head o true p v1 ids1 ord q (self, w) in
        if v' =? 0 then True else True).
      { intros p v1 ids1 ord q rest self w _ _.
        destruct (fill_head o true p v1 ids1 ord q (self, w)) as [[v' ids'] s1].
        destruct (v' =? 0); exact Logic.I. }
      destruct (R Hbody fuel v [] s _ s' Logic.I H) as (-> & Hb' & _).
      rewrite Hb' in Hk. symmetry in Hk. apply map_eq_nil in Hk.
      destruct fuel as [|fuel]; [discriminate|].
      rewrite (walk_levels_empty fuel o true v [] s Hk) in H.
      inversion H; subst. split; [reflexivity|]. left. auto.
  - intros fuel o v s Hr Hb Hv. unfold submit_market_order. cbn [negb andb].
    rewrite (Hzero s Hr Hb).
    replace (v >? 0) with false
      by (symmetry; rewrite Z.gtb_ltb; apply Z.ltb_ge; lia).
    now apply walk_levels_empty.
  - intros fuel o v s Hr Hb Hv Hp.
    rewrite submit_market_order_exceeds by (rewrite (Hzero s Hr Hb); lia).
    rewrite (Hzero s Hr Hb). unfold exceeds_short_msg, fstring2, str.
    rewrite Hp, printable_zero. reflexivity.
Qed.

Lemma market_order_exceptions_witness :
  submit_market_order 1 "u" true 0 init = (Raised StopIteration, init)
  /\ submit_market_order 1 "u" true 3 init
     = (Returned (None, Some "volume=3>self._short_volume=0!"%string), init).
Proof.
  split.
  - apply (proj1 (proj2 market_order_exceptions) 0%nat "u"%string
             0 init reachable_init eq_refl). lia.
  - apply (proj2 (proj2 market_order_exceptions) 1%nat "u"%string
             3 init reachable_init eq_refl); [lia|vm_compute; reflexivity].
Defined.

(** ** What a limit order does *)

(** X12.  [submit_limit_order] never raises [StopIteration]: the two
    best-price reads are guarded by [len(...) > 0].  It makes no deal.
    An order that does not cross returns [(order_id, None)] with one
    identifier drawn; one that crosses changes nothing and returns
    [(None, reason)], or raises [ValueError] when its price or the first
    key it is compared with does not print. *)
Theorem limit_order_outcomes owner_id is_buy price volume s :
  exists r s',
    submit_limit_order owner_id is_buy price volume s = (r, s')
    /\ made_deals (snd s') = made_deals (snd s)
    /\ (~ crosses is_buy price (fst s)
        /\ r = Returned (Some (uuid_next (snd s)), None)
        /\ uuid_next (snd s') = S (uuid_next (snd s))
        \/ crosses is_buy price (fst s) /\ s' = s
           /\ ((exists reason, r = Returned (None, Some reason))
               \/ r = Raised ValueError
                  /\ exists m,
                       (if is_buy then get_max_bid_price (fst s)
                        else get_min_ask_price (fst s)) = inr m
                       /\ (printable price = false \/ printable m = false))).
Proof.
  destruct (submit_limit_order_cases owner_id is_buy price volume s)
    as [(Hc & m & Hm & E)|(Hnc & _)].
  - rewrite E. eexists. eexists. split; [reflexivity|]. split; [reflexivity|].
    right. split; [exact Hc|]. split; [reflexivity|].
    destruct is_buy; unfold reject_buy_msg, reject_sell_msg;
      match goal with |- context [fstring2 ?a ?x ?b ?y ?c] =>
        destruct (fstring2_cases a x b y c) as [(_ & _ & ->)|(Hxy & ->)] end;
      cbn [reject]; eauto.
  - destruct (accepted_limit_order_rests owner_id is_buy price volume s Hnc)
      as (s' & E & Hn & Hd & _).
    rewrite E. eexists. eexists. split; [reflexivity|]. split; [exact Hd|].
    left. auto.
Qed.

Lemma values_sum_insert (f : deque -> Z) (l1 l2 : list (Z * deque)) k q :
  zsum (map f (sd_values (l1 ++ (k, q) :: l2)))
  = zsum (map f (sd_values (l1 ++ l2))) + f q.
Proof.
  unfold sd_values. rewrite !map_app, !zsum_app. simpl. lia.
Qed.

(** The number of queued orders of a sorted store goes up by one when an
    order is appended to its level. *)
Lemma store_append_count key price o (d : list (Z * deque)) :
  sd_sorted key d ->
  let queue :=
    match sd_get price d with Some q => q ++ [o] | None => [o] end in
  zsum (map (fun ords : deque => Z.of_nat (List.length ords))
          (sd_values (sd_set key price queue d)))
  = zsum (map (fun ords : deque => Z.of_nat (List.length ords))
            (sd_values d)) + 1.
Proof.
  intros Hs queue. subst queue.
  destruct (sd_get price d) as [q|] eqn:G.
  - destruct (sd_set_present key price (q ++ [o]) q d Hs G)
      as (l1 & l2 & -> & ->).
    rewrite !values_sum_insert, length_app. cbn [List.length]. lia.
  - destruct (sd_set_absent key price [o] d G) as (l1 & l2 & -> & ->).
    rewrite values_sum_insert. cbn [List.length]. lia.
Qed.

(** X13.  On a reachable book an accepted buy limit order raises
    [get_long_num_ords] by one and leaves [get_short_num_ords] as it was;
    an accepted sell does the same with the two exchanged; a rejected
    order changes neither. *)
Theorem limit_order_counts owner_id is_buy price volume s x s' :
  reachable s ->
  submit_limit_order owner_id is_buy price volume s = (Returned x, s') ->
  match fst x with
  | None =>
      get_long_num_ords (fst s') = get_long_num_ords (fst s)
      /\ get_short_num_ords (fst s') = get_short_num_ords (fst s)
  | Some _ =>
      if is_buy
      then get_long_num_ords (fst s') = get_long_num_ords (fst s) + 1
           /\ get_short_num_ords (fst s') = get_short_num_ords (fst s)
      else get_short_num_ords (fst s') = get_short_num_ords (fst s) + 1
           /\ get_long_num_ords (fst s') = get_long_num_ords (fst s)
  end.
Proof.
  intros Hr. pose proof (reachable_ok _ Hr) as Hok.
  destruct (submit_limit_order_cases owner_id is_buy price volume s)
    as [(_ & m & _ & E)|(_ & E)]; rewrite E.
  - case_reject; intros H; inversion H; subst. cbn [fst]. auto.
  - destruct s as [self w]. rewrite rest_limit_order_eq.
    intros H; inversion H; subst; clear H. cbn [fst].
    unfold get_long_num_ords, get_short_num_ords.
    destruct is_buy; cbn [asks bids set_asks set_bids set_long_volume
                            set_short_volume].
    + split; [|reflexivity].
      apply (store_append_count asks_key price _ (asks self)).
      exact (ok_asks_sorted _ Hok).
    + split; [|reflexivity].
      apply (store_append_count bids_key price _ (bids self)).
      exact (ok_bids_sorted _ Hok).
Qed.

Lemma limit_order_counts_witness :
  get_short_num_ords
    (fst (snd (submit_limit_order "z" false 101 5 (after 5 sample_calls))))
  = get_short_num_ords (fst (after 5 sample_calls)) + 1
  /\ get_long_num_ords
       (fst (snd (submit_limit_order "z" false 101 5 (after 5 sample_calls))))
     = get_long_num_ords (fst (after 5 sample_calls)).
Proof.
  apply (limit_order_counts "z" false 101 5 (after 5 sample_calls)
           (Some 4%nat, None)
           (snd (submit_limit_order "z" false 101 5 (after 5 sample_calls)))).
  - apply (run_reachable 5 sample_calls init 0 _ 12 reachable_init).
    vm_compute. reflexivity.
  - vm_compute. reflexivity.
Defined.

(** ** A sell and the buy that takes it *)

(** X14.  On a reachable book with an empty [bids], a sell limit order
    that passes its guard followed by a buy market order for the same
    volume gives one deal, for that volume, at that price and against
    that order; [_short_volume] is back at 0 and nothing rests in [bids],
    but the level of the order stays in [bids] with an empty queue. *)
Theorem sell_then_buy_round_trip fuel seller buyer price volume s :
  reachable s -> bids (fst s) = [] ->
  ~ crosses false price (fst s) -> (2 <= fuel)%nat ->
  exists s1 d s2,
    submit_limit_order seller false price volume s
    = (Returned (Some (uuid_next (snd s)), None), s1)
    /\ submit_market_order fuel buyer true volume s1
       = (Returned (Some [Deal.deal_id d], None), s2)
    /\ made_deals (snd s2) = made_deals (snd s) ++ [d]
    /\ Deal.volume d = volume /\ Deal.price d = price
    /\ Deal.order_id_market d = uuid_next (snd s)
    /\ bids (fst s2) = [(price, [])]
    /\ asks (fst s2) = asks (fst s)
    /\ _short_volume (fst s2) = 0
    /\ _long_volume (fst s2) = _long_volume (fst s).
Proof.
  intros Hr Hb Hnc Hf. pose proof (reachable_ok _ Hr) as Hok.
  assert (Hz : _short_volume (fst s) = 0).
  { rewrite (ok_short _ Hok). unfold get_total_short_volume. now rewrite Hb. }
  destruct (submit_limit_order_cases seller false price volume s)
    as [(Hc & _)|(_ & E)]; [contradiction|].
  rewrite E. destruct s as [self w]. cbn [fst snd] in *.
  rewrite rest_limit_order_eq. cbv zeta. rewrite Hb, Hz. cbn [sd_get sd_set].
  set (o := Order.mk seller false price volume "" (uuid_next w)).
  set (self1 := set_bids (set_short_volume self (0 + volume)) [(price, [o])]).
  set (w1 := mkWorld (S (uuid_next w)) (made_deals w)).
  assert (Hb1 : bids self1 = (price, [o]) :: []) by reflexivity.
  exists (self1, w1).
  exists (Deal.mk volume price (S (uuid_next w)) (uuid_next w) ""
            (S (S (uuid_next w)))).
  destruct fuel as [|[|fuel]]; [lia|lia|].
  unfold submit_market_order. cbn [negb andb fst].
  replace (volume >? _short_volume self1) with false
    by (symmetry; rewrite Z.gtb_ltb; apply Z.ltb_ge; cbn; lia).
  cbn [walk_levels fill_level fst]. unfold get_max_bid_price.
  rewrite Hb1. cbn [sd_first sd_get]. rewrite Z.eqb_refl.
  rewrite (fill_head_eq _ _ _ _ _ _ _ _ _ _ Hb1). cbv zeta.
  cbn [Order.volume o]. rewrite Z.min_id, Z.sub_diag, Z.ltb_irrefl.
  cbn [Z.eqb]. eexists. split; [reflexivity|]. split; [reflexivity|].
  cbn [fst snd made_deals bids asks set_bids set_short_volume _short_volume
         _long_volume Deal.volume Deal.price Deal.order_id_market w1 self1
         uuid_next].
  repeat split; auto. lia.
Qed.

Lemma sell_then_buy_round_trip_witness :
  exists s1 d s2,
    submit_limit_order "a" false 101 10 init
    = (Returned (Some 0%nat, None), s1)
    /\ submit_market_order 2 "u" true 10 s1
       = (Returned (Some [Deal.deal_id d], None), s2)
    /\ Deal.volume d = 10 /\ Deal.price d = 101
    /\ bids (fst s2) = [(101, [])]
    /\ _short_volume (fst s2) = 0.
Proof.
  destruct (sell_then_buy_round_trip 2 "a" "u" 101 10 init)
    as (s1 & d & s2 & E1 & E2 & _ & Hv & Hp & _ & Hb & _ & Hs & _).
  - exact reachable_init.
  - reflexivity.
  - intros (m & Hm & _). discriminate.
  - lia.
  - exists s1, d, s2. repeat split; assumption.
Defined.
